(** * The HTML renderer of commonmark.js ([lib/html.js])

    A shallow embedding of the renderer object and of every method of its
    prototype, followed by the properties of the renderer that were checked
    against it.

    Conventions of the embedding.
    - A JavaScript string is a sequence of code units.  The embedding uses
      [string], so a code unit is below 256 (the Latin-1 range).
    - A JavaScript number that the renderer only counts with or prints
      ([disableTags], [listStart], [level], source positions) is a [Z] that
      stands for an integer of magnitude below 2^53: there every integer
      is a number of the language, adding and subtracting 1 is exact, and
      [toString] is the decimal numeral.  From 2^53 on a number of the
      language is a rounded one, and from 10^21 on it is printed with an
      exponent; the embedding says nothing of such numbers.
    - [null] is [None].
    - The renderer object is a record that every method takes and gives back;
      a method that can throw returns a [completion]. *)

From Stdlib Require Import String Ascii List ZArith Lia Bool DecimalString.
Import ListNotations.
Open Scope string_scope.
Open Scope Z_scope.

(** ** JavaScript strings *)

Module JsString.

(** The line feed, written ['\n'] in the source. *)
Definition LF : string := String (ascii_of_nat 10) EmptyString.

(** The double quote character (code 34). *)
Definition DQ : string := String (ascii_of_nat 34) EmptyString.

Definition char_code (c : ascii) : nat := nat_of_ascii c.

Definition between (lo hi : nat) (c : ascii) : bool :=
  (Nat.leb lo (char_code c) && Nat.leb (char_code c) hi)%bool.

(** [String.prototype.toLowerCase] on one code unit: A-Z, and in the upper
    half of Latin-1 the capitals 0xC0-0xDE but for the multiplication sign
    0xD7, move 32 places up. *)
Definition lower_char (c : ascii) : ascii :=
  if between 65 90 c then ascii_of_nat (char_code c + 32)
  else if (between 192 222 c && negb (Nat.eqb (char_code c) 215))%bool
       then ascii_of_nat (char_code c + 32)
  else c.

Fixpoint toLowerCase (s : string) : string :=
  match s with
  | EmptyString => EmptyString
  | String c s' => String (lower_char c) (toLowerCase s')
  end.

(** [Number.prototype.toString] of an integer of magnitude below 2^53: its
    decimal numeral.  (Beyond that bound the numbers of the language are no
    longer all the integers, and the numeral here is not what the code
    prints.) *)
Definition number_toString (n : Z) : string :=
  NilZero.string_of_int (Z.to_int n).

(** JavaScript truthiness of a string or null: [null] and [''] are falsy. *)
Definition truthy (s : option string) : bool :=
  match s with
  | None => false
  | Some EmptyString => false
  | Some _ => true
  end.

(** The characters of the class [\s] that are below 256. *)
Definition is_space (c : ascii) : bool :=
  (between 9 13 c || Nat.eqb (char_code c) 32 || Nat.eqb (char_code c) 160)%bool.

(** [s.split(/\s+/)[0]]: the characters before the first white space. *)
Fixpoint first_word (s : string) : string :=
  match s with
  | EmptyString => EmptyString
  | String c s' => if is_space c then EmptyString else String c (first_word s')
  end.

End JsString.
Import JsString.

(** ** Regular expressions

    The fragment of the regular-expression language that the three patterns of
    the file are written in, with the backtracking matcher of the language:
    the alternatives of a position are tried in order, a star is greedy, and
    the positions of the subject are tried from the left. *)

Module Regex.

Inductive regex : Type :=
| Eps                              (* the empty pattern *)
| Bol                              (* ^ *)
| Chr (c : ascii)                  (* a pattern character *)
| StarNot (c : ascii)              (* [^c]* *)
| Seq (r1 r2 : regex)
| Alt (r1 r2 : regex).

(** A run of pattern characters. *)
Fixpoint Lit (s : string) : regex :=
  match s with
  | EmptyString => Eps
  | String c EmptyString => Chr c
  | String c s' => Seq (Chr c) (Lit s')
  end.

(** Canonicalize of the language, for a pattern with the flag [i]: a code
    unit is compared by its upper-case form.  A code unit from 128 on never
    canonicalizes to one below 128, and the patterns of this file hold code
    units below 128 only, so leaving that range alone decides the same
    matches. *)
Definition canonicalize (ignoreCase : bool) (c : ascii) : ascii :=
  if (ignoreCase && between 97 122 c)%bool
  then ascii_of_nat (char_code c - 32) else c.

Definition char_eq (ignoreCase : bool) (a b : ascii) : bool :=
  Ascii.eqb (canonicalize ignoreCase a) (canonicalize ignoreCase b).

(** The ways [[^c]*] matches at the head of [s], the longest first.  Each
    way is the rest of the subject it leaves. *)
Fixpoint star_not (i : bool) (c : ascii) (s : string) : list string :=
  match s with
  | EmptyString => [EmptyString]
  | String a s' =>
      if char_eq i a c then [s] else star_not i c s' ++ [s]
  end.

(** [matches i r at_start s]: the ways [r] matches at the head of [s], in
    the order the matcher tries them.  [at_start] says whether the head of
    [s] is index 0 of the subject; each way gives the rest of the subject
    and whether that rest still is at index 0. *)
Fixpoint matches (i : bool) (r : regex) (at_start : bool) (s : string)
  : list (bool * string) :=
  match r with
  | Eps => [(at_start, s)]
  | Bol => if at_start then [(at_start, s)] else []
  | Chr c =>
      match s with
      | String a s' => if char_eq i a c then [(false, s')] else []
      | EmptyString => []
      end
  | StarNot c =>
      map (fun rest => ((at_start && (String.length rest =? String.length s)%nat)%bool, rest))
          (star_not i c s)
  | Seq r1 r2 =>
      flat_map (fun '(b, rest) => matches i r2 b rest) (matches i r1 at_start s)
  | Alt r1 r2 => matches i r1 at_start s ++ matches i r2 at_start s
  end.

(** The first match from the left: the text before it and the text after
    it.  [at_start] is true at index 0 only. *)
Fixpoint exec_from (i : bool) (r : regex) (at_start : bool) (s : string)
  : option (string * string) :=
  match matches i r at_start s with
  | (_, rest) :: _ => Some (EmptyString, rest)
  | [] =>
      match s with
      | EmptyString => None
      | String a s' =>
          match exec_from i r false s' with
          | Some (before, rest) => Some (String a before, rest)
          | None => None
          end
      end
  end.

Definition exec (i : bool) (r : regex) (s : string) : option (string * string) :=
  exec_from i r true s.

(** [RegExp.prototype.test] of a pattern without the flag [g]. *)
Definition test (i : bool) (r : regex) (s : string) : bool :=
  match exec i r s with Some _ => true | None => false end.

(** [String.prototype.replace] with a pattern without the flag [g]: the
    first match from the left is replaced, the rest of the subject is
    kept as it is. *)
Definition replace (i : bool) (r : regex) (by_ : string) (s : string) : string :=
  match exec i r s with
  | Some (before, rest) => before ++ by_ ++ rest
  | None => s
  end.

End Regex.
Import Regex.

(** ** The patterns and the URL filter *)

(** [/\<[^>]*\>/] *)
Definition reHtmlTag : regex := Seq (Chr "<") (Seq (StarNot ">") (Chr ">")).

(** [/^javascript:|vbscript:|file:|data:/i]: an alternation of four
    alternatives, of which the first one holds the assertion [^]. *)
Definition reUnsafeProtocol : regex :=
  Alt (Seq Bol (Lit "javascript:"))
      (Alt (Lit "vbscript:") (Alt (Lit "file:") (Lit "data:"))).

(** [/^data:image\/(?:png|gif|jpeg|webp)/i] *)
Definition reSafeDataProtocol : regex :=
  Seq Bol (Seq (Lit "data:image/")
               (Alt (Lit "png") (Alt (Lit "gif") (Alt (Lit "jpeg") (Lit "webp"))))).

Definition potentiallyUnsafe (url : string) : bool :=
  (test true reUnsafeProtocol url && negb (test true reSafeDataProtocol url))%bool.

(** ** The document tree and the traversal

    The tree and its walker belong to the parser.  The renderer reads the
    fields below from a node, and it reads the events of the walker one after
    the other; the embedding takes the events as a list. *)

(** A node, as far as the renderer reads it.  [literal] and [destination]
    are strings on the nodes whose handlers read them; [title], [info],
    [listType], [listStart], [sourcepos] and [parent] can be [null].  The
    parent is a reference into the tree: the renderer follows it twice, and
    the embedding holds the chain of ancestors in the node. *)
#[warnings="-register-all"]
Inductive node : Type := Node {
  type : string;                                (* 'Text', 'Paragraph', ... *)
  literal : string;
  destination : string;
  title : option string;
  info : option string;
  level : Z;
  listType : option string;                     (* 'Bullet', 'Ordered' *)
  listStart : option Z;
  listTight : bool;
  sourcepos : option ((Z * Z) * (Z * Z));       (* [[line, col], [line, col]] *)
  parent : option node
}.

Record event : Type := Event { ev_entering : bool; ev_node : node }.

(** An attribute is a pair of a name and a value, [[name, value]]. *)
Definition attr : Type := (string * string)%type.

(** ** The renderer object *)

Record opts : Type := Opts {
  opt_safe : bool;
  opt_sourcepos : bool;
  opt_time : bool
}.

Record renderer : Type := Renderer {
  SOFTBREAK : string;
  escape : string -> bool -> string;
  options : opts;
  buffer : string;
  lastOut : string;
  disableTags : Z;
  entering : bool
}.

Definition set_buffer (r : renderer) (b : string) : renderer :=
  Renderer (SOFTBREAK r) (escape r) (options r) b (lastOut r) (disableTags r) (entering r).
Definition set_lastOut (r : renderer) (l : string) : renderer :=
  Renderer (SOFTBREAK r) (escape r) (options r) (buffer r) l (disableTags r) (entering r).
Definition set_disableTags (r : renderer) (d : Z) : renderer :=
  Renderer (SOFTBREAK r) (escape r) (options r) (buffer r) (lastOut r) d (entering r).
Definition set_entering (r : renderer) (e : bool) : renderer :=
  Renderer (SOFTBREAK r) (escape r) (options r) (buffer r) (lastOut r) (disableTags r) e.

(** What a method call can throw: the string of [render], a [TypeError] (a
    property of [null] is read, or a value that is no function is called),
    and the exhaustion of the call stack. *)
Inductive exn : Type :=
| ThrowString (message : string)
| TypeError
| StackOverflow.

(** A method call completes normally, and leaves the renderer object in a
    new state, or abruptly, with what it throws.  Nothing in the file
    catches: what a handler throws ends [render]. *)
Inductive completion : Type :=
| Normal (r : renderer)
| Abrupt (e : exn).

(** What the caller of [render] gets: the string, or what was thrown. *)
Inductive result : Type :=
| Returned (s : string)
| Raised (e : exn).

(** ** Output: [out], [cr], [tag] *)

Definition out (r : renderer) (s : string) : renderer :=
  let r1 :=
    if 0 <? disableTags r
    then set_buffer r (buffer r ++ replace false reHtmlTag "" s)
    else set_buffer r (buffer r ++ s) in
  set_lastOut r1 s.

Definition cr (r : renderer) : renderer :=
  if String.eqb (lastOut r) LF then r
  else set_lastOut (set_buffer r (buffer r ++ LF)) LF.

(** The loop of [tag] over the attribute array. *)
Fixpoint tag_attrs (result : string) (attrs : list attr) : string :=
  match attrs with
  | [] => result
  | attrib :: rest =>
      tag_attrs (result ++ " " ++ fst attrib ++ "=" ++ DQ ++ snd attrib ++ DQ) rest
  end.

(** [attrs] is [None] where the caller leaves the argument out, or passes a
    value without a [length] (as [blockquote] and [item] do).  [selfclosing]
    is [false] where the caller leaves it out. *)
Definition tag (name : string) (attrs : option (list attr)) (selfclosing : bool)
  : string :=
  let result := "<" ++ name in
  let result :=
    match attrs with
    | Some l => if (0 <? length l)%nat then tag_attrs result l else result
    | None => result
    end in
  let result := if selfclosing then result ++ " /" else result in
  result ++ ">".

(** [attrs.push(a)] *)
Definition push (attrs : list attr) (a : attr) : list attr := (attrs ++ [a])%list.

(** ** The handlers of the node types

    A handler is called as [this[method](node, attrs)]; it reads the phase of
    the event from the field [entering]. *)

Definition document (r : renderer) : completion := Normal r.

Definition text (r : renderer) (n : node) : completion :=
  Normal (out r (escape r (literal n) false)).

Definition softbreak (r : renderer) : completion :=
  Normal (out r (SOFTBREAK r)).

Definition hardbreak (r : renderer) : completion :=
  Normal (cr (out r (tag "br" (Some []) true))).

Definition emph (r : renderer) : completion :=
  Normal (out r (tag (if entering r then "em" else "/em") None false)).

Definition strong (r : renderer) : completion :=
  Normal (out r (tag (if entering r then "strong" else "/strong") None false)).

Definition html (r : renderer) (n : node) : completion :=
  if opt_safe (options r)
  then Normal (out r "<!-- raw HTML omitted -->")
  else Normal (out r (literal n)).

Definition link (r : renderer) (n : node) (attrs : list attr) : completion :=
  if entering r then
    let attrs :=
      if negb (opt_safe (options r) && potentiallyUnsafe (destination n))%bool
      then push attrs ("href", escape r (destination n) true)
      else attrs in
    let attrs :=
      match title n with
      | Some t => if truthy (title n) then push attrs ("title", escape r t true) else attrs
      | None => attrs
      end in
    Normal (out r (tag "a" (Some attrs) false))
  else
    Normal (out r (tag "/a" None false)).

Definition image (r : renderer) (n : node) : completion :=
  if entering r then
    let r1 :=
      if disableTags r =? 0 then
        if (opt_safe (options r) && potentiallyUnsafe (destination n))%bool
        then out r ("<img src=" ++ DQ ++ DQ ++ " alt=" ++ DQ)
        else out r ("<img src=" ++ DQ ++ escape r (destination n) true
                    ++ DQ ++ " alt=" ++ DQ)
      else r in
    Normal (set_disableTags r1 (disableTags r1 + 1))
  else
    let r1 := set_disableTags r (disableTags r - 1) in
    if disableTags r1 =? 0 then
      let r2 :=
        match title n with
        | Some t =>
            if truthy (title n)
            then out r1 (DQ ++ " title=" ++ DQ ++ escape r1 t true)
            else r1
        | None => r1
        end in
      Normal (out r2 (DQ ++ " />"))
    else Normal r1.

Definition code (r : renderer) (n : node) : completion :=
  Normal (out r (tag "code" None false ++ escape r (literal n) false
                 ++ tag "/code" None false)).

Definition codeblock (r : renderer) (n : node) (attrs : list attr) : completion :=
  let info_words0 : option string :=
    match info n with
    | Some i => if truthy (info n) then Some (first_word i) else None
    | None => None
    end in
  let attrs :=
    match info_words0 with
    | Some w =>
        if (0 <? String.length w)%nat
        then push attrs ("class", "language-" ++ escape r w true)
        else attrs
    | None => attrs
    end in
  let r := cr r in
  let r := out r (tag "pre" None false ++ tag "code" (Some attrs) false) in
  let r := out r (escape r (literal n) false) in
  let r := out r (tag "/code" None false ++ tag "/pre" None false) in
  Normal (cr r).

(** [node.parent.parent] throws where [node.parent] is [null]. *)
Definition paragraph (r : renderer) (n : node) (attrs : list attr) : completion :=
  match parent n with
  | None => Abrupt TypeError
  | Some p =>
      let grandparent := parent p in
      let tight :=
        match grandparent with
        | Some g => (String.eqb (type g) "List" && listTight g)%bool
        | None => false
        end in
      if tight then Normal r
      else if entering r
      then Normal (out (cr r) (tag "p" (Some attrs) false))
      else Normal (cr (out r (tag "/p" None false)))
  end.

(** [blockquote] and [item] name their one parameter [attrs]; the
    dispatcher passes the node there, which has no [length], so that [tag]
    writes no attribute. *)
Definition blockquote (r : renderer) (n : node) : completion :=
  if entering r
  then Normal (cr (out (cr r) (tag "blockquote" None false)))
  else Normal (cr (out (cr r) (tag "/blockquote" None false))).

Definition item (r : renderer) (n : node) : completion :=
  if entering r
  then Normal (out r (tag "li" None false))
  else Normal (cr (out r (tag "/li" None false))).

Definition list_ (r : renderer) (n : node) (attrs : list attr) : completion :=
  let tagname :=
    match listType n with
    | Some t => if String.eqb t "Bullet" then "ul" else "ol"
    | None => "ol"
    end in
  if entering r then
    let start := listStart n in
    let attrs :=
      match start with
      | Some k => if negb (k =? 1) then push attrs ("start", number_toString k) else attrs
      | None => attrs
      end in
    Normal (cr (out (cr r) (tag tagname (Some attrs) false)))
  else
    Normal (cr (out (cr r) (tag ("/" ++ tagname) None false))).

Definition header (r : renderer) (n : node) (attrs : list attr) : completion :=
  let tagname := "h" ++ number_toString (level n) in
  if entering r
  then Normal (out (cr r) (tag tagname (Some attrs) false))
  else Normal (cr (out r (tag ("/" ++ tagname) None false))).

Definition htmlblock (r : renderer) (n : node) : completion :=
  let r := cr r in
  let r :=
    if opt_safe (options r)
    then out r "<!-- raw HTML omitted -->"
    else out r (literal n) in
  Normal (cr r).

Definition horizontalrule (r : renderer) (n : node) (attrs : list attr) : completion :=
  Normal (cr (out (cr r) (tag "hr" (Some attrs) true))).

(** ** The constructor, the dispatcher and [render] *)

(** The methods of [HtmlRenderer.prototype], and the two functions that the
    object holds besides: [escape], a field, and [constructor]. *)
Inductive method : Type :=
| M_document | M_text | M_softbreak | M_hardbreak | M_emph | M_strong
| M_html | M_link | M_image | M_code | M_codeblock | M_paragraph
| M_blockquote | M_item | M_list | M_header | M_htmlblock | M_horizontalrule
| M_render | M_out | M_cr | M_tag | M_escape | M_constructor.

Definition prototype : list (string * method) :=
  [ ("render", M_render); ("out", M_out); ("cr", M_cr); ("tag", M_tag);
    ("document", M_document); ("text", M_text); ("softbreak", M_softbreak);
    ("hardbreak", M_hardbreak); ("emph", M_emph); ("strong", M_strong);
    ("html", M_html); ("link", M_link); ("image", M_image); ("code", M_code);
    ("codeblock", M_codeblock); ("paragraph", M_paragraph);
    ("blockquote", M_blockquote); ("item", M_item); ("list", M_list);
    ("header", M_header); ("htmlblock", M_htmlblock);
    ("horizontalrule", M_horizontalrule); ("constructor", M_constructor) ].

(** What [this[name]] gives, as far as the dispatcher tells values apart: a
    function, a value that is truthy and no function, or a falsy value. *)
Inductive property : Type :=
| Function (m : method)
| Truthy
| Falsy.

Fixpoint assoc (name : string) (table : list (string * method)) : option method :=
  match table with
  | [] => None
  | (k, m) :: rest => if String.eqb k name then Some m else assoc name rest
  end.

(** [this[name]] for a name in lower case: the fields of the object first,
    then the prototype, then [__proto__] of [Object.prototype].  Every other
    property of the object ([SOFTBREAK], [lastOut], [disableTags],
    [toString], [hasOwnProperty] and the like) has a capital letter in its
    name, and the dispatcher asks for names in lower case only. *)
Definition get (r : renderer) (name : string) : property :=
  if String.eqb name "escape" then Function M_escape
  else if String.eqb name "options" then Truthy
  else if String.eqb name "buffer"
       then (if String.eqb (buffer r) "" then Falsy else Truthy)
  else if String.eqb name "entering"
       then (if entering r then Truthy else Falsy)
  else match assoc name prototype with
       | Some m => Function m
       | None => if String.eqb name "__proto__" then Truthy else Falsy
       end.

Section Render.

(** [escapeXml] of [./common], which is not part of these sources. *)
Variable escapeXml : string -> bool -> string.

(** [HtmlRenderer(options)] run on an object [r]. *)
Definition HtmlRenderer (r : renderer) (options : opts) : renderer :=
  Renderer LF escapeXml options (buffer r) (lastOut r) (disableTags r) (entering r).

(** [new HtmlRenderer(options)]; the four fields that [render] sets are
    not there yet, and read as falsy. *)
Definition new_HtmlRenderer (options : opts) : renderer :=
  Renderer LF escapeXml options "" "" 0 false.

(** The assignments at the head of [render]. *)
Definition reset (r : renderer) : renderer :=
  Renderer (SOFTBREAK r) (escape r) (options r) "" LF 0 false.

(** [this[method](node, attrs)] for a property that is a function.  The
    last six are no handlers, but the dispatcher calls them all the same
    when a node type spells their name:
    - [out] gets the node as its string: with tags disabled the node has
      no [replace] to call, otherwise the node is appended as the string
      that an object converts to, and [lastOut] is that node, which
      differs from the line feed as that string does;
    - [cr] takes no argument; [tag] and [escape] give a string that is
      dropped;
    - [render] walks the node, whose first event is that node again: the
      calls nest until the stack is exhausted;
    - [constructor] is [HtmlRenderer], which takes the node for the
      options; a node has a [sourcepos], and no [safe] and no [time]. *)
Definition call (m : method) (r : renderer) (n : node) (attrs : list attr)
  : completion :=
  match m with
  | M_document => document r
  | M_text => text r n
  | M_softbreak => softbreak r
  | M_hardbreak => hardbreak r
  | M_emph => emph r
  | M_strong => strong r
  | M_html => html r n
  | M_link => link r n attrs
  | M_image => image r n
  | M_code => code r n
  | M_codeblock => codeblock r n attrs
  | M_paragraph => paragraph r n attrs
  | M_blockquote => blockquote r n
  | M_item => item r n
  | M_list => list_ r n attrs
  | M_header => header r n attrs
  | M_htmlblock => htmlblock r n
  | M_horizontalrule => horizontalrule r n attrs
  | M_out =>
      if 0 <? disableTags r then Abrupt TypeError
      else Normal (set_lastOut (set_buffer r (buffer r ++ "[object Object]"))
                               "[object Object]")
  | M_cr => Normal (cr r)
  | M_tag => Normal r
  | M_escape => Normal r
  | M_render => Abrupt StackOverflow
  | M_constructor =>
      Normal (HtmlRenderer r
                (Opts false (match sourcepos n with Some _ => true | None => false end)
                      false))
  end.

Definition unknown_node_type (n : node) : string :=
  "Unknown node type " ++ type n.

(** The [data-sourcepos] attribute that the dispatcher computes. *)
Definition sourcepos_attrs (r : renderer) (n : node) : list attr :=
  if opt_sourcepos (options r) then
    match sourcepos n with
    | Some pos =>
        push [] ("data-sourcepos",
                 number_toString (fst (fst pos)) ++ ":" ++
                 number_toString (snd (fst pos)) ++ "-" ++
                 number_toString (fst (snd pos)) ++ ":" ++
                 number_toString (snd (snd pos)))
    | None => []
    end
  else [].

(** The body of the loop of [render], for one event. *)
Definition step (r : renderer) (ev : event) : completion :=
  let r := set_entering r (ev_entering ev) in
  let n := ev_node ev in
  let attrs := sourcepos_attrs r n in
  let method := toLowerCase (type n) in
  match get r method with
  | Function m => call m r n attrs
  | Truthy => Abrupt TypeError
  | Falsy => Abrupt (ThrowString (unknown_node_type n))
  end.

(** The loop of [render] over the events of the walker. *)
Fixpoint run (r : renderer) (events : list event) : completion :=
  match events with
  | [] => Normal r
  | ev :: rest =>
      match step r ev with
      | Normal r' => run r' rest
      | Abrupt e => Abrupt e
      end
  end.

(** [render(block)], for the events that [block.walker()] yields.  The
    instrumentation of [options.time] writes to the console only. *)
Definition render (r : renderer) (events : list event) : result :=
  match run (reset r) events with
  | Normal r' => Returned (buffer r')
  | Abrupt e => Raised e
  end.

End Render.

(** Modelled from the spec: the escape primitive of [./common], which is
    not part of these sources.  It turns the ampersand, the two angle
    brackets and, for an attribute value, the double quote into their
    entities.  The properties below hold for every escape function; this one
    is there to run the renderer on examples. *)
Fixpoint escapeXml_spec (s : string) (isAttribute : bool) : string :=
  match s with
  | EmptyString => EmptyString
  | String c s' =>
      (if Ascii.eqb c "&" then "&amp;"
       else if Ascii.eqb c "<" then "&lt;"
       else if Ascii.eqb c ">" then "&gt;"
       else if (isAttribute && Ascii.eqb c (ascii_of_nat 34))%bool then "&quot;"
       else String c EmptyString) ++ escapeXml_spec s' isAttribute
  end.


(** ** Auxiliary definitions for the statements *)

(** The text that the loop of [tag] adds for an attribute array. *)
Fixpoint attrs_text (attrs : list attr) : string :=
  match attrs with
  | [] => ""
  | a :: rest => " " ++ fst a ++ "=" ++ DQ ++ snd a ++ DQ ++ attrs_text rest
  end.

(** The text [sub] occurs in [s]. *)
Fixpoint includes (sub s : string) : bool :=
  (prefix sub s ||
   match s with
   | EmptyString => false
   | String _ s' => includes sub s'
   end)%bool.

(** [s] starts with [p], letter case aside. *)
Fixpoint starts_with_ci (p s : string) : bool :=
  match p, s with
  | EmptyString, _ => true
  | String a p', String b s' => (char_eq true b a && starts_with_ci p' s')%bool
  | String _ _, EmptyString => false
  end.

(** [p] occurs in [s], letter case aside. *)
Fixpoint includes_ci (p s : string) : bool :=
  (starts_with_ci p s ||
   match s with
   | EmptyString => false
   | String _ s' => includes_ci p s'
   end)%bool.

(** [s] without its first [n] characters. *)
Fixpoint skip (n : nat) (s : string) : string :=
  match n, s with
  | O, _ => s
  | S n', String _ s' => skip n' s'
  | S _, EmptyString => EmptyString
  end.

(** The pattern matches at the head of [s]. *)
Definition can_match (i : bool) (r : regex) (at_start : bool) (s : string) : bool :=
  match matches i r at_start s with
  | [] => false
  | _ :: _ => true
  end.

(** The pattern matches at the head of [s] or further on. *)
Fixpoint search (i : bool) (r : regex) (at_start : bool) (s : string) : bool :=
  (can_match i r at_start s ||
   match s with
   | EmptyString => false
   | String _ s' => search i r false s'
   end)%bool.

(** The character [c] does not occur in [s]. *)
Fixpoint free_of (c : ascii) (s : string) : bool :=
  match s with
  | EmptyString => true
  | String a s' => (negb (Ascii.eqb a c) && free_of c s')%bool
  end.

(** The grandparent of the node is a list that is tight: the test at the
    head of [paragraph]. *)
Definition in_tight_list (n : node) : bool :=
  match parent n with
  | Some p =>
      match parent p with
      | Some g => (String.eqb (type g) "List" && listTight g)%bool
      | None => false
      end
  | None => false
  end.

(** The event is dispatched to [image]. *)
Definition is_image (ev : event) : bool :=
  String.eqb (toLowerCase (type (ev_node ev))) "image".

(** What the events add to [disableTags]: one up for an image entered, one
    down for an image left. *)
Fixpoint image_delta (events : list event) : Z :=
  match events with
  | [] => 0
  | ev :: rest =>
      (if is_image ev then if ev_entering ev then 1 else -1 else 0)
      + image_delta rest
  end.

(** The image events are balanced: with [depth] images open before the
    events, every image that is left was entered before, and none is open at
    the end. *)
Fixpoint images_balanced (depth : nat) (events : list event) : bool :=
  match events with
  | [] => Nat.eqb depth 0
  | ev :: rest =>
      if is_image ev then
        if ev_entering ev then images_balanced (S depth) rest
        else match depth with
             | O => false
             | S depth' => images_balanced depth' rest
             end
      else images_balanced depth rest
  end.

(** What [image] writes for the attribute [src], and for the title. *)
Definition image_src (r : renderer) (n : node) : string :=
  if (opt_safe (options r) && potentiallyUnsafe (destination n))%bool
  then "" else escape r (destination n) true.

Definition image_title (r : renderer) (n : node) : string :=
  match title n with
  | Some t => if truthy (title n) then DQ ++ " title=" ++ DQ ++ escape r t true else ""
  | None => ""
  end.

(** The rest of [s] after its first [>], when it has one. *)
Fixpoint after_first_gt (s : string) : option string :=
  match s with
  | EmptyString => None
  | String a s' => if Ascii.eqb a ">" then Some s' else after_first_gt s'
  end.

(** The claims of the specification that the code does not meet are stated
    here the way the specification words them, to be compared with the
    code. *)
Module Spec.

(** The URL filter as the specification words it: the four schemes are
    prefixes, and so is the allow-list. *)
Definition isPotentiallyUnsafe (url : string) : bool :=
  ((starts_with_ci "javascript:" url || starts_with_ci "vbscript:" url
    || starts_with_ci "file:" url || starts_with_ci "data:" url)
   && negb (starts_with_ci "data:image/png" url || starts_with_ci "data:image/gif" url
            || starts_with_ci "data:image/jpeg" url
            || starts_with_ci "data:image/webp" url))%bool.

(** Every match of a pattern removed, from the left, as [replace] does
    with a pattern that has the flag [g].  The patterns of this file match
    no empty text, so every round shortens the subject. *)
Fixpoint remove_all_fuel (fuel : nat) (r : regex) (s : string) : string :=
  match fuel with
  | O => s
  | S fuel' =>
      match exec false r s with
      | Some (before, rest) => before ++ remove_all_fuel fuel' r rest
      | None => s
      end
  end.

Definition remove_all (r : regex) (s : string) : string :=
  remove_all_fuel (S (String.length s)) r s.

(** The matches of a pattern that [replace] finds with the flag [g]: how
    many there are. *)
Fixpoint count_fuel (fuel : nat) (r : regex) (s : string) : nat :=
  match fuel with
  | O => O
  | S fuel' =>
      match exec false r s with
      | Some (_, rest) => S (count_fuel fuel' r rest)
      | None => O
      end
  end.

Definition count (r : regex) (s : string) : nat :=
  count_fuel (S (String.length s)) r s.

(** C3 as the specification words it: a name that begins with a slash
    gives the bare closing tag, whatever the attribute list. *)
Definition closing_tag_ignores_attributes
  (name : string) (attrs : list attr) (selfclosing : bool) : Prop :=
  prefix "/" name = true ->
  tag name (Some attrs) selfclosing = "<" ++ name ++ ">".

(** C2 as the specification words it: with tags disabled, [out] appends
    the text with every match of the tag pattern removed, and [lastOut] is
    the text that was appended. *)
Definition emit_strips_every_tag (r : renderer) (text : string) : Prop :=
  0 < disableTags r ->
  buffer (out r text) = buffer r ++ remove_all reHtmlTag text
  /\ lastOut (out r text) = remove_all reHtmlTag text.

(** C4 as the specification words it: the text that entering a list gives
    holds a start attribute if and only if the list is ordered and its
    start is there and is not 1. *)
Definition list_start_iff_ordered
  (escapeXml : string -> bool -> string) (r : renderer) (n : node) : Prop :=
  forall output,
    render escapeXml r [Event true n] = Returned output ->
    (includes (" start=" ++ DQ) output = true
     <-> listType n = Some "Ordered" /\ exists k, listStart n = Some k /\ k <> 1).

End Spec.

(** ** Nodes and renderers to run the model on *)

Definition node0 : node :=
  Node "Document" "" "" None None 0 None None false None None.

Definition with_type (t : string) (n : node) : node :=
  Node t (literal n) (destination n) (title n) (info n) (level n)
       (listType n) (listStart n) (listTight n) (sourcepos n) (parent n).

Definition with_literal (l : string) (n : node) : node :=
  Node (type n) l (destination n) (title n) (info n) (level n)
       (listType n) (listStart n) (listTight n) (sourcepos n) (parent n).

Definition with_parent (p : node) (n : node) : node :=
  Node (type n) (literal n) (destination n) (title n) (info n) (level n)
       (listType n) (listStart n) (listTight n) (sourcepos n) (Some p).

Definition renderer0 : renderer := new_HtmlRenderer escapeXml_spec (Opts false false false).

Definition with_list (t : string) (start : option Z) (tight : bool) (n : node) : node :=
  Node (type n) (literal n) (destination n) (title n) (info n) (level n)
       (Some t) start tight (sourcepos n) (parent n).

Definition with_destination (d : string) (n : node) : node :=
  Node (type n) (literal n) d (title n) (info n) (level n)
       (listType n) (listStart n) (listTight n) (sourcepos n) (parent n).

(** A tight bullet list of one item: list, item, paragraph, text. *)
Definition tight_list : node := with_list "Bullet" None true (with_type "List" node0).
Definition tight_item : node := with_parent tight_list (with_type "Item" node0).
Definition tight_paragraph : node := with_parent tight_item (with_type "Paragraph" node0).
Definition tight_text : node :=
  with_parent tight_paragraph (with_literal "a" (with_type "Text" node0)).

(** The same in a list that is not tight. *)
Definition loose_list : node := with_list "Bullet" None false (with_type "List" node0).
Definition loose_item : node := with_parent loose_list (with_type "Item" node0).
Definition loose_paragraph : node := with_parent loose_item (with_type "Paragraph" node0).

(** A paragraph at the root of a tree. *)
Definition root_paragraph : node := with_type "Paragraph" node0.

(** Two images, the second one inside the description of the first. *)
Definition outer_image : node := with_destination "a.png" (with_type "Image" node0).
Definition inner_image : node := with_destination "b.png" (with_type "Image" node0).
Definition nested_images : list event :=
  [ Event true outer_image;
    Event true (with_literal "x" (with_type "Text" node0));
    Event true inner_image;
    Event true (with_literal "y" (with_type "Text" node0));
    Event false inner_image;
    Event false outer_image ].

Definition with_info (i : string) (n : node) : node :=
  Node (type n) (literal n) (destination n) (title n) (Some i) (level n)
       (listType n) (listStart n) (listTight n) (sourcepos n) (parent n).

Definition with_sourcepos (pos : (Z * Z) * (Z * Z)) (n : node) : node :=
  Node (type n) (literal n) (destination n) (title n) (info n) (level n)
       (listType n) (listStart n) (listTight n) (Some pos) (parent n).

(** A renderer in safe mode, and one that writes source positions. *)
Definition renderer_safe : renderer :=
  new_HtmlRenderer escapeXml_spec (Opts true false false).
Definition renderer_sourcepos : renderer :=
  new_HtmlRenderer escapeXml_spec (Opts false true false).

(** A bullet list that carries a start number. *)
Definition bullet_list_5 : node := with_list "Bullet" (Some 5) false (with_type "List" node0).

(** An ordered list that starts at 5. *)
Definition ordered_list_5 : node := with_list "Ordered" (Some 5) false (with_type "List" node0).

(** A renderer in the middle of the alternative text of an image. *)
Definition renderer_in_image : renderer :=
  set_disableTags (out (reset renderer0) ("<img src=" ++ DQ ++ "u" ++ DQ ++ " alt=" ++ DQ)) 1.


(** ** Auxiliary definitions for the properties of the whole renderer *)

(** The names under which the prototype holds the handlers of the node
    types. *)
Definition handler_names : list string :=
  [ "document"; "text"; "softbreak"; "hardbreak"; "emph"; "strong"; "html";
    "link"; "image"; "code"; "codeblock"; "paragraph"; "blockquote"; "item";
    "list"; "header"; "htmlblock"; "horizontalrule" ].

(** The type of the node names a handler. *)
Definition has_handler (n : node) : bool :=
  existsb (String.eqb (toLowerCase (type n))) handler_names.

(** The method is the handler of a node type. *)
Definition is_handler (m : method) : bool :=
  match m with
  | M_render | M_out | M_cr | M_tag | M_escape | M_constructor => false
  | _ => true
  end.

(** The event names a handler, and gives it what it reads without a test: a
    paragraph has a parent. *)
Definition well_formed (ev : event) : bool :=
  (has_handler (ev_node ev)
   && (negb (String.eqb (toLowerCase (type (ev_node ev))) "paragraph")
       || match parent (ev_node ev) with Some _ => true | None => false end))%bool.

(** The text is empty or ends with a line feed. *)
Fixpoint at_line_start (s : string) : bool :=
  match s with
  | EmptyString => true
  | String c EmptyString => Ascii.eqb c (ascii_of_nat 10)
  | String _ s' => at_line_start s'
  end.

(** The same event for another node. *)
Definition map_node (f : node -> node) (ev : event) : event :=
  Event (ev_entering ev) (f (ev_node ev)).

(** The node without what safe mode keeps out of the output: the literal of
    raw HTML. *)
Definition redact_raw (n : node) : node :=
  if (String.eqb (toLowerCase (type n)) "html"
      || String.eqb (toLowerCase (type n)) "htmlblock")%bool
  then with_literal "" n else n.

(** The node with the destination of a link or an image that the filter
    takes for unsafe replaced by another such destination. *)
Definition redact_destination (n : node) : node :=
  if ((String.eqb (toLowerCase (type n)) "link"
       || String.eqb (toLowerCase (type n)) "image")
      && potentiallyUnsafe (destination n))%bool
  then with_destination "javascript:" n else n.

(** What [cr] relies on: when [lastOut] is the line feed, the buffer is
    empty or ends with one. *)
Definition line_start_invariant (r : renderer) : Prop :=
  lastOut r = LF -> at_line_start (buffer r) = true.

(** The configuration of the renderer object: what the constructor sets. *)
Definition config (r : renderer) : string * (string -> bool -> string) * opts :=
  (SOFTBREAK r, escape r, options r).

(** Every event of the sequence names a handler. *)
Definition known_types (events : list event) : bool :=
  forallb (fun ev => has_handler (ev_node ev)) events.

(** Every character of the text is below 128. *)
Fixpoint below_128 (p : string) : bool :=
  match p with
  | EmptyString => true
  | String a p' => ((char_code a <? 128)%nat && below_128 p')%bool
  end.

(** The text holds no white space. *)
Fixpoint no_space (w : string) : bool :=
  match w with
  | EmptyString => true
  | String c w' => (negb (is_space c) && no_space w')%bool
  end.

(** What [codeblock] writes for the class of the language: nothing where
    the info string is absent or does not begin with a word. *)
Definition language_class (r : renderer) (n : node) : string :=
  match info n with
  | Some i =>
      match first_word i with
      | EmptyString => ""
      | String c w => " class=" ++ DQ ++ "language-" ++ escape r (String c w) true ++ DQ
      end
  | None => ""
  end.

(** The node without its source position. *)
Definition without_sourcepos (n : node) : node :=
  Node (type n) (literal n) (destination n) (title n) (info n) (level n)
       (listType n) (listStart n) (listTight n) None (parent n).

(** What [link] writes for the destination and for the title. *)
Definition link_href (r : renderer) (n : node) : string :=
  if (opt_safe (options r) && potentiallyUnsafe (destination n))%bool
  then "" else " href=" ++ DQ ++ escape r (destination n) true ++ DQ.

Definition link_title (r : renderer) (n : node) : string :=
  match title n with
  | Some t => if truthy (title n) then " title=" ++ DQ ++ escape r t true ++ DQ else ""
  | None => ""
  end.





(** * Properties *)

(** ** Strings *)

Lemma append_assoc (a b c : string) : (a ++ b) ++ c = a ++ (b ++ c).
Proof. induction a as [|x a IH]; simpl; [reflexivity | now rewrite IH]. Qed.

Lemma append_nil_r (a : string) : a ++ "" = a.
Proof. induction a as [|x a IH]; simpl; [reflexivity | now rewrite IH]. Qed.

Lemma append_inv_head (a b c : string) : a ++ b = a ++ c -> b = c.
Proof.
  induction a as [|x a IH]; simpl; intros H; [exact H|].
  injection H as H. now apply IH.
Qed.

Lemma LF_not_empty : LF <> "".
Proof. discriminate. Qed.

(** ** Sanity checks of the model on concrete inputs *)

Example potentiallyUnsafe_examples :
  potentiallyUnsafe "javascript:alert(1)" = true
  /\ potentiallyUnsafe "data:image/png;base64,AAAA" = false
  /\ potentiallyUnsafe "JAVASCRIPT:x" = true
  /\ potentiallyUnsafe "http://example.com/" = false.
Proof. repeat split; reflexivity. Qed.

Example replace_examples :
  replace false reHtmlTag "" "<code>x</code>" = "x</code>"
  /\ replace false reHtmlTag "" "a < b <i>c</i>" = "a c</i>"
  /\ replace false reHtmlTag "" "a < b" = "a < b"
  /\ Spec.remove_all reHtmlTag "<code>x</code>" = "x".
Proof. repeat split; reflexivity. Qed.

Example render_emph :
  render escapeXml_spec renderer0
    [ Event true (with_type "Emph" node0);
      Event true (with_literal "hi" (with_type "Text" node0));
      Event false (with_type "Emph" node0) ]
  = Returned "<em>hi</em>".
Proof. reflexivity. Qed.

Example render_codeblock :
  render escapeXml_spec renderer0
    [Event true (with_info "js extra tokens"
                   (with_literal "a<b" (with_type "CodeBlock" node0)))]
  = Returned ("<pre><code class=" ++ DQ ++ "language-js" ++ DQ ++ ">a&lt;b</code></pre>"
              ++ LF)
  /\ render escapeXml_spec renderer0
       [Event true (with_info "" (with_literal "x" (with_type "CodeBlock" node0)))]
     = Returned ("<pre><code>x</code></pre>" ++ LF).
Proof. split; reflexivity. Qed.

Example render_link_safe :
  render escapeXml_spec renderer_safe
    [ Event true (with_destination "javascript:evil()" (with_type "Link" node0));
      Event true (with_literal "text" (with_type "Text" node0));
      Event false (with_destination "javascript:evil()" (with_type "Link" node0)) ]
  = Returned "<a>text</a>"
  /\ render escapeXml_spec renderer0
       [ Event true (with_destination "/u" (with_type "Link" node0));
         Event false (with_destination "/u" (with_type "Link" node0)) ]
     = Returned ("<a href=" ++ DQ ++ "/u" ++ DQ ++ "></a>").
Proof. split; reflexivity. Qed.

(** With source positions on, a paragraph carries the attribute and a block
    quote does not: [blockquote] takes the node for its attributes. *)
Example render_sourcepos :
  render escapeXml_spec renderer_sourcepos
    [ Event true (with_sourcepos ((1, 1), (2, 5)) (with_type "BlockQuote" node0));
      Event true (with_sourcepos ((1, 3), (2, 5)) loose_paragraph);
      Event false (with_sourcepos ((1, 3), (2, 5)) loose_paragraph);
      Event false (with_sourcepos ((1, 1), (2, 5)) (with_type "BlockQuote" node0)) ]
  = Returned ("<blockquote>" ++ LF ++ "<p data-sourcepos=" ++ DQ ++ "1:3-2:5" ++ DQ
              ++ "></p>" ++ LF ++ "</blockquote>" ++ LF).
Proof. reflexivity. Qed.

(** ** The URL filter *)

Lemma exec_from_search (i : bool) (r : regex) (b : bool) (s : string) :
  match exec_from i r b s with Some _ => true | None => false end = search i r b s.
Proof.
  revert b. induction s as [|a s IH]; intros b.
  - cbn [exec_from search]. unfold can_match.
    destruct (matches i r b "") as [|[b' rest] l]; reflexivity.
  - cbn [exec_from search]. unfold can_match.
    destruct (matches i r b (String a s)) as [|[b' rest] l]; [|reflexivity].
    rewrite <- (IH false).
    destruct (exec_from i r false s) as [[before rest]|]; reflexivity.
Qed.

Lemma test_search (i : bool) (r : regex) (s : string) :
  test i r s = search i r true s.
Proof. apply exec_from_search. Qed.

Lemma can_match_Alt (i : bool) (r1 r2 : regex) (b : bool) (s : string) :
  can_match i (Alt r1 r2) b s = (can_match i r1 b s || can_match i r2 b s)%bool.
Proof.
  unfold can_match. cbn [matches].
  destruct (matches i r1 b s); [reflexivity | reflexivity].
Qed.

Lemma search_Alt (i : bool) (r1 r2 : regex) (b : bool) (s : string) :
  search i (Alt r1 r2) b s = (search i r1 b s || search i r2 b s)%bool.
Proof.
  revert b. induction s as [|a s IH]; intros b; cbn [search]; rewrite can_match_Alt.
  - now rewrite !orb_false_r.
  - rewrite (IH false).
    destruct (can_match i r1 b (String a s)), (can_match i r2 b (String a s)),
      (search i r1 false s), (search i r2 false s); reflexivity.
Qed.

Lemma can_match_Bol (i : bool) (r : regex) (b : bool) (s : string) :
  can_match i (Seq Bol r) b s = (b && can_match i r b s)%bool.
Proof.
  unfold can_match. cbn [matches]. destruct b; cbn [flat_map andb]; [|reflexivity].
  now rewrite app_nil_r.
Qed.

(** A pattern that begins with [^] matches at index 0 or nowhere. *)
Lemma search_Bol (i : bool) (r : regex) (s : string) :
  search i (Seq Bol r) true s = can_match i r true s
  /\ search i (Seq Bol r) false s = false.
Proof.
  assert (H : forall s', search i (Seq Bol r) false s' = false).
  { induction s' as [|a s' IH]; cbn [search]; rewrite can_match_Bol; [reflexivity|].
    exact IH. }
  split; [|apply H].
  destruct s as [|a s]; cbn [search]; rewrite can_match_Bol, ?H;
    cbn [andb]; now rewrite orb_false_r.
Qed.

(** A run of pattern characters matches the text it is a prefix of, letter
    case aside, and leaves the rest of it. *)
Lemma matches_Lit (c : ascii) (p : string) (b : bool) (s : string) :
  matches true (Lit (String c p)) b s
  = if starts_with_ci (String c p) s
    then [(false, skip (S (String.length p)) s)]
    else [].
Proof.
  revert c b s. induction p as [|c' p IH]; intros c b s.
  - cbn [Lit matches starts_with_ci String.length skip].
    destruct s as [|a s]; [reflexivity|].
    destruct (char_eq true a c); reflexivity.
  - change (Lit (String c (String c' p))) with (Seq (Chr c) (Lit (String c' p))).
    cbn [matches]. destruct s as [|a s]; [reflexivity|].
    cbn [starts_with_ci skip String.length] in *.
    destruct (char_eq true a c); [|reflexivity].
    cbn [flat_map andb]. rewrite app_nil_r. apply IH.
Qed.

Lemma can_match_Lit (p : string) (b : bool) (s : string) :
  can_match true (Lit p) b s = starts_with_ci p s.
Proof.
  unfold can_match. destruct p as [|c p].
  - cbn [Lit matches]. now destruct s.
  - rewrite matches_Lit. now destruct (starts_with_ci (String c p) s).
Qed.

Lemma search_Lit (p : string) (b : bool) (s : string) :
  search true (Lit p) b s = includes_ci p s.
Proof.
  revert b. induction s as [|a s IH]; intros b; cbn [search includes_ci];
    rewrite can_match_Lit; [reflexivity|]. now rewrite (IH false).
Qed.

Lemma can_match_Lit_then (c : ascii) (p : string) (r : regex) (b : bool) (s : string) :
  can_match true (Seq (Lit (String c p)) r) b s
  = (starts_with_ci (String c p) s
     && can_match true r false (skip (S (String.length p)) s))%bool.
Proof.
  unfold can_match at 1. cbn [matches]. rewrite matches_Lit.
  destruct (starts_with_ci (String c p) s); cbn [flat_map andb]; [|reflexivity].
  now rewrite app_nil_r.
Qed.

Lemma starts_with_ci_app (p q s : string) :
  starts_with_ci (p ++ q) s
  = (starts_with_ci p s && starts_with_ci q (skip (String.length p) s))%bool.
Proof.
  revert s. induction p as [|c p IH]; intros s; [reflexivity|].
  cbn [append starts_with_ci String.length skip].
  destruct s as [|a s].
  - reflexivity.
  - rewrite IH. now rewrite andb_assoc.
Qed.

(** What the filter of the code computes: [javascript:] is looked for at
    the start of the URL, the three other schemes anywhere in it; the
    allow-list is looked for at the start. *)
Lemma potentiallyUnsafe_computes (url : string) :
  potentiallyUnsafe url
  = ((starts_with_ci "javascript:" url || includes_ci "vbscript:" url
      || includes_ci "file:" url || includes_ci "data:" url)
     && negb (starts_with_ci "data:image/png" url || starts_with_ci "data:image/gif" url
              || starts_with_ci "data:image/jpeg" url
              || starts_with_ci "data:image/webp" url))%bool.
Proof.
  unfold potentiallyUnsafe. rewrite !test_search. f_equal; [|f_equal].
  - unfold reUnsafeProtocol. rewrite !search_Alt, !search_Lit.
    rewrite (proj1 (search_Bol true _ url)), can_match_Lit.
    now rewrite !orb_assoc.
  - unfold reSafeDataProtocol.
    rewrite (proj1 (search_Bol true _ url)).
    change (Lit "data:image/") with (Lit (String "d" "ata:image/")).
    rewrite can_match_Lit_then, !can_match_Alt, !can_match_Lit.
    change "data:image/png" with ("data:image/" ++ "png").
    change "data:image/gif" with ("data:image/" ++ "gif").
    change "data:image/jpeg" with ("data:image/" ++ "jpeg").
    change "data:image/webp" with ("data:image/" ++ "webp").
    rewrite !starts_with_ci_app.
    change (String.length "data:image/") with (S (String.length "ata:image/")).
    destruct (starts_with_ci "data:image/" url); cbn [andb orb]; [|reflexivity].
    now rewrite !orb_assoc.
Qed.

Lemma includes_ci_here (p s : string) : starts_with_ci p s = true -> includes_ci p s = true.
Proof. intros H. destruct s; cbn [includes_ci]; now rewrite H. Qed.

(** The filter of the code takes for unsafe whatever the filter of the
    specification does. *)
Lemma potentiallyUnsafe_covers_spec (url : string) :
  Spec.isPotentiallyUnsafe url = true -> potentiallyUnsafe url = true.
Proof.
  rewrite potentiallyUnsafe_computes. unfold Spec.isPotentiallyUnsafe.
  intros H. apply andb_true_iff in H as [Hs Ha].
  apply andb_true_iff. split; [|exact Ha].
  apply orb_true_iff in Hs as [Hs|Hs]; [apply orb_true_iff in Hs as [Hs|Hs];
    [apply orb_true_iff in Hs as [Hs|Hs]|]|].
  - now rewrite Hs.
  - rewrite (includes_ci_here _ _ Hs). now rewrite !orb_true_r.
  - rewrite (includes_ci_here _ _ Hs). now rewrite !orb_true_r.
  - rewrite (includes_ci_here _ _ Hs). now rewrite !orb_true_r.
Qed.

(** C1.  The specification has the four schemes as prefixes of the URL.  In
    the pattern of the code the assertion [^] belongs to the first
    alternative only, so that a URL that holds [vbscript:], [file:] or
    [data:] anywhere is taken for unsafe: here a link to a web page, which
    the filter of the specification lets through and the code does not. *)
Theorem potentiallyUnsafe_inside_url :
  potentiallyUnsafe "http://example.com/file:1" = true
  /\ Spec.isPotentiallyUnsafe "http://example.com/file:1" = false
  /\ potentiallyUnsafe "x-data:1" = true
  /\ potentiallyUnsafe "a vbscript:b" = true
  /\ potentiallyUnsafe " javascript:alert(1)" = false.
Proof. repeat split; reflexivity. Qed.

(** ** The output primitives *)

Lemma out_fields (r : renderer) (s : string) :
  lastOut (out r s) = s
  /\ disableTags (out r s) = disableTags r
  /\ entering (out r s) = entering r
  /\ options (out r s) = options r
  /\ escape (out r s) = escape r
  /\ SOFTBREAK (out r s) = SOFTBREAK r.
Proof. unfold out. destruct (0 <? disableTags r); repeat split. Qed.

Lemma out_buffer_enabled (r : renderer) (s : string) :
  disableTags r <= 0 -> buffer (out r s) = buffer r ++ s.
Proof.
  intros H. unfold out.
  destruct (Z.ltb_spec 0 (disableTags r)) as [Hlt|_]; [lia | reflexivity].
Qed.

Lemma out_buffer_disabled (r : renderer) (s : string) :
  0 < disableTags r ->
  buffer (out r s) = buffer r ++ replace false reHtmlTag "" s.
Proof.
  intros H. unfold out.
  destruct (Z.ltb_spec 0 (disableTags r)) as [_|Hle]; [reflexivity | lia].
Qed.

Lemma cr_fields (r : renderer) :
  lastOut (cr r) = LF
  /\ disableTags (cr r) = disableTags r
  /\ entering (cr r) = entering r
  /\ options (cr r) = options r
  /\ escape (cr r) = escape r
  /\ SOFTBREAK (cr r) = SOFTBREAK r.
Proof.
  unfold cr. destruct (String.eqb_spec (lastOut r) LF) as [E|N]; repeat split.
  exact E.
Qed.

Lemma cr_at_line_start (r : renderer) : lastOut r = LF -> cr r = r.
Proof. intros E. unfold cr. rewrite E, String.eqb_refl. reflexivity. Qed.

Lemma cr_inside_line (r : renderer) :
  lastOut r <> LF -> cr r = set_lastOut (set_buffer r (buffer r ++ LF)) LF.
Proof.
  intros N. unfold cr.
  destruct (String.eqb_spec (lastOut r) LF) as [E|_]; [contradiction | reflexivity].
Qed.

Lemma append_not_self (a b : string) : b <> "" -> a ++ b <> a.
Proof.
  intros Hb E. apply Hb.
  apply (append_inv_head a). now rewrite append_nil_r.
Qed.

(** C8.  [cr] (ensureLineBreak) appends one line feed when [lastOut] is not
    exactly the line feed and does nothing otherwise; it leaves [lastOut] at
    the line feed, so that a second call in a row does nothing and two calls
    append at most one line feed; and [render] starts with [lastOut] at the
    line feed, so that a leading call appends nothing. *)
Theorem cr_idempotent (r : renderer) :
  (buffer (cr r) = buffer r ++ LF <-> lastOut r <> LF)
  /\ (cr r = r <-> lastOut r = LF)
  /\ cr (cr r) = cr r
  /\ (buffer (cr (cr r)) = buffer r \/ buffer (cr (cr r)) = buffer r ++ LF)
  /\ cr (reset r) = reset r
  /\ buffer (cr (reset r)) = "".
Proof.
  assert (Hidem : cr (cr r) = cr r).
  { apply cr_at_line_start. apply cr_fields. }
  split; [|split; [|split; [|split; [|split]]]].
  - split.
    + intros Hb E. rewrite (cr_at_line_start r E) in Hb.
      symmetry in Hb. revert Hb. apply append_not_self, LF_not_empty.
    + intros N. rewrite (cr_inside_line r N). reflexivity.
  - split.
    + intros E. rewrite <- E. apply cr_fields.
    + apply cr_at_line_start.
  - exact Hidem.
  - rewrite Hidem.
    destruct (String.eqb_spec (lastOut r) LF) as [E|N].
    + left. now rewrite (cr_at_line_start r E).
    + right. now rewrite (cr_inside_line r N).
  - apply cr_at_line_start. reflexivity.
  - reflexivity.
Qed.

(** ** The tag builder *)

Lemma tag_attrs_text (result : string) (attrs : list attr) :
  tag_attrs result attrs = result ++ attrs_text attrs.
Proof.
  revert result. induction attrs as [|a rest IH]; intros result;
    cbn [tag_attrs attrs_text].
  - now rewrite append_nil_r.
  - rewrite IH. now rewrite !append_assoc.
Qed.

Lemma tag_shape (name : string) (attrs : option (list attr)) (selfclosing : bool) :
  tag name attrs selfclosing
  = "<" ++ name
    ++ attrs_text (match attrs with Some l => l | None => [] end)
    ++ (if selfclosing then " /" else "") ++ ">".
Proof.
  unfold tag.
  assert (E : match attrs with
              | Some l => if (0 <? length l)%nat then tag_attrs ("<" ++ name) l
                          else "<" ++ name
              | None => "<" ++ name
              end
              = ("<" ++ name) ++ attrs_text (match attrs with Some l => l | None => [] end)).
  { destruct attrs as [[|a l]|]; simpl Nat.ltb; cbv iota.
    - simpl attrs_text. now rewrite append_nil_r.
    - apply tag_attrs_text.
    - simpl attrs_text. now rewrite append_nil_r. }
  rewrite E. destruct selfclosing; now rewrite !append_assoc.
Qed.

(** C3 (amended).  [tag] does not look at how [name] begins.  For a name
    that begins with a slash it writes, as for every name, the name, then
    each attribute of the list in order, then the mark of a self-closing tag
    when asked for; the bare closing tag comes out when the attribute list
    is absent or empty and the tag is not self-closing. *)
Theorem tag_closing_name (name : string) (attrs : option (list attr)) (selfclosing : bool) :
  tag ("/" ++ name) attrs selfclosing
  = "</" ++ name
    ++ attrs_text (match attrs with Some l => l | None => [] end)
    ++ (if selfclosing then " /" else "") ++ ">"
  /\ tag ("/" ++ name) None false = "</" ++ name ++ ">"
  /\ tag ("/" ++ name) (Some []) false = "</" ++ name ++ ">"
  /\ forall a l,
       tag ("/" ++ name) (Some (a :: l)) false
       = "</" ++ name ++ " " ++ fst a ++ "=" ++ DQ ++ snd a ++ DQ ++ attrs_text l ++ ">".
Proof.
  split; [|split; [|split]].
  - exact (tag_shape ("/" ++ name) attrs selfclosing).
  - exact (tag_shape ("/" ++ name) None false).
  - exact (tag_shape ("/" ++ name) (Some []) false).
  - intros a l. rewrite (tag_shape ("/" ++ name) (Some (a :: l)) false).
    cbn [attrs_text]. rewrite !append_assoc. reflexivity.
Qed.

(** C3 as stated fails: a closing name with one attribute keeps the
    attribute. *)
Lemma tag_closing_name_counterexample :
  ~ Spec.closing_tag_ignores_attributes "/a" [("href", "x")] false.
Proof.
  unfold Spec.closing_tag_ignores_attributes. intros H.
  specialize (H eq_refl). discriminate H.
Qed.

(** ** The tag pattern *)

Lemma char_eq_exact (a c : ascii) : char_eq false a c = Ascii.eqb a c.
Proof. reflexivity. Qed.

(** After the star, the closing bracket: of all the ways the star matches,
    the one that stops before the first [>] goes on. *)
Lemma star_then_gt (g : string -> bool) (s : string) :
  flat_map (fun '(b, rest) => matches false (Chr ">") b rest)
           (map (fun rest => (g rest, rest)) (star_not false ">" s))
  = match after_first_gt s with
    | Some rest => [(false, rest)]
    | None => []
    end.
Proof.
  induction s as [|a s IH]; [reflexivity|].
  cbn [star_not after_first_gt]. rewrite char_eq_exact.
  destruct (Ascii.eqb a ">") eqn:E.
  - cbn [map flat_map matches]. rewrite char_eq_exact, E. reflexivity.
  - rewrite map_app, flat_map_app, IH.
    cbn [map flat_map matches]. rewrite char_eq_exact, E.
    now rewrite !app_nil_r.
Qed.

Lemma matches_reHtmlTag (at_start : bool) (s : string) :
  matches false reHtmlTag at_start s
  = match s with
    | String a s' =>
        if Ascii.eqb a "<"
        then match after_first_gt s' with
             | Some rest => [(false, rest)]
             | None => []
             end
        else []
    | EmptyString => []
    end.
Proof.
  destruct s as [|a s']; [reflexivity|].
  unfold reHtmlTag. cbn [matches]. rewrite char_eq_exact.
  destruct (Ascii.eqb a "<"); [|reflexivity].
  cbn [flat_map]. rewrite app_nil_r.
  apply (star_then_gt
           (fun rest => (false && (String.length rest =? String.length s')%nat)%bool)).
Qed.

Lemma after_first_gt_app (b c : string) :
  free_of ">" b = true -> after_first_gt (b ++ ">" ++ c) = Some c.
Proof.
  induction b as [|x b IH]; intros H; [reflexivity|].
  cbn [free_of] in H. apply andb_true_iff in H as [Hx Hb].
  cbn [append after_first_gt]. apply negb_true_iff in Hx. rewrite Hx.
  now apply IH.
Qed.

(** Where a text has no [>], the pattern matches nowhere in it. *)
Lemma exec_from_no_gt (at_start : bool) (s : string) :
  after_first_gt s = None -> exec_from false reHtmlTag at_start s = None.
Proof.
  revert at_start. induction s as [|a s IH]; intros at_start H; [reflexivity|].
  cbn [after_first_gt] in H. destruct (Ascii.eqb a ">") eqn:E; [discriminate|].
  cbn [exec_from]. rewrite matches_reHtmlTag, H.
  destruct (Ascii.eqb a "<"); now rewrite (IH false H).
Qed.

(** The first match of the pattern starts at the first [<] and ends at the
    first [>] after it. *)
Lemma exec_reHtmlTag (at_start : bool) (a b c : string) :
  free_of "<" a = true -> free_of ">" b = true ->
  exec_from false reHtmlTag at_start (a ++ "<" ++ b ++ ">" ++ c) = Some (a, c).
Proof.
  intros Ha Hb. revert at_start.
  induction a as [|x a IH]; intros at_start.
  - change ("" ++ "<" ++ b ++ ">" ++ c) with (String "<" (b ++ ">" ++ c)).
    cbn [exec_from]. rewrite matches_reHtmlTag.
    cbn [Ascii.eqb Bool.eqb]. rewrite (after_first_gt_app b c Hb). reflexivity.
  - cbn [free_of] in Ha. apply andb_true_iff in Ha as [Hx Ha].
    apply negb_true_iff in Hx.
    change ((String x a) ++ "<" ++ b ++ ">" ++ c)
      with (String x (a ++ "<" ++ b ++ ">" ++ c)).
    cbn [exec_from]. rewrite matches_reHtmlTag, Hx, (IH Ha false). reflexivity.
Qed.

(** Conversely, every match of the pattern is of that form. *)
Lemma exec_reHtmlTag_inv (at_start : bool) (s a c : string) :
  exec_from false reHtmlTag at_start s = Some (a, c) ->
  exists b, s = a ++ "<" ++ b ++ ">" ++ c
            /\ free_of "<" a = true /\ free_of ">" b = true.
Proof.
  revert at_start a. induction s as [|x s IH]; intros at_start a H.
  - discriminate H.
  - cbn [exec_from] in H. rewrite matches_reHtmlTag in H.
    destruct (Ascii.eqb x "<") eqn:Ex.
    + destruct (after_first_gt s) as [rest|] eqn:Eg.
      * injection H as <- <-.
        apply Ascii.eqb_eq in Ex. subst x.
        clear IH. revert rest Eg.
        induction s as [|y s IHs]; intros rest Eg; [discriminate|].
        cbn [after_first_gt] in Eg. destruct (Ascii.eqb y ">") eqn:Ey.
        -- injection Eg as <-. apply Ascii.eqb_eq in Ey. subst y.
           exists "". repeat split.
        -- destruct (IHs rest Eg) as (b & Hs & _ & Hb).
           exists (String y b). repeat split.
           ++ cbn [append] in Hs |- *. injection Hs as Hs. now rewrite Hs at 1.
           ++ cbn [free_of]. now rewrite Ey, Hb.
      * now rewrite (exec_from_no_gt false s Eg) in H.
    + destruct (exec_from false reHtmlTag false s) as [[before rest]|] eqn:E;
        [|discriminate].
      injection H as <- <-.
      destruct (IH false before E) as (b & Hs & Ha & Hb).
      exists b. repeat split.
      * cbn [append]. now rewrite Hs at 1.
      * cbn [free_of]. now rewrite Ex, Ha.
      * exact Hb.
Qed.

(** ** [out] while tags are disabled *)

(** Where the pattern matches nowhere, nothing is removed. *)
Lemma remove_all_fuel_none (fuel : nat) (s : string) :
  exec false reHtmlTag s = None -> Spec.remove_all_fuel fuel reHtmlTag s = s.
Proof. intros E. destruct fuel; cbn [Spec.remove_all_fuel]; [|rewrite E]; reflexivity. Qed.

(** On a text with one match of the tag pattern at most, removing the first
    match removes them all. *)
Lemma replace_removes_all (text : string) :
  (Spec.count reHtmlTag text <= 1)%nat ->
  replace false reHtmlTag "" text = Spec.remove_all reHtmlTag text.
Proof.
  unfold Spec.count, Spec.remove_all, replace.
  cbn [Spec.count_fuel Spec.remove_all_fuel].
  destruct (exec false reHtmlTag text) as [[before rest]|] eqn:E; [|reflexivity].
  intros H. cbn [append]. f_equal.
  destruct text as [|c text]; [discriminate E|].
  cbn [String.length Spec.count_fuel] in H.
  destruct (exec false reHtmlTag rest) as [[b' r']|] eqn:E'; [lia|].
  symmetry. now apply remove_all_fuel_none.
Qed.

(** C2 (amended).  With tags disabled, [lastOut] after [out] is the text
    that was passed in, not the text that was appended.  What is appended
    is the text with its tags removed: for a text that holds one match of
    the tag pattern at most, the text with every match removed, which is
    the text itself when it holds none, and the text before its first [<]
    and after the [>] that closes it when it holds one. *)
Theorem out_with_tags_disabled (r : renderer) (text : string) :
  0 < disableTags r ->
  lastOut (out r text) = text
  /\ ((Spec.count reHtmlTag text <= 1)%nat ->
      buffer (out r text) = buffer r ++ Spec.remove_all reHtmlTag text)
  /\ (test false reHtmlTag text = false -> buffer (out r text) = buffer r ++ text)
  /\ (forall a b c,
        text = a ++ "<" ++ b ++ ">" ++ c ->
        free_of "<" a = true -> free_of ">" b = true ->
        test false reHtmlTag c = false ->
        buffer (out r text) = buffer r ++ a ++ c).
Proof.
  intros Hd. split; [apply out_fields|].
  rewrite (out_buffer_disabled r text Hd). split; [|split].
  - intros H. now rewrite (replace_removes_all text H).
  - unfold test, replace. intros H.
    destruct (exec false reHtmlTag text) as [[before rest]|]; [discriminate | reflexivity].
  - intros a b c -> Ha Hb _. unfold replace, exec.
    now rewrite (exec_reHtmlTag true a b c Ha Hb).
Qed.

Lemma out_with_tags_disabled_witness :
  lastOut (out renderer_in_image "<br />") = "<br />"
  /\ buffer (out renderer_in_image "<br />")
     = buffer renderer_in_image ++ Spec.remove_all reHtmlTag "<br />".
Proof.
  destruct (out_with_tags_disabled renderer_in_image "<br />" eq_refl)
    as (Hl & Hb & _).
  split; [exact Hl|].
  exact (Hb (le_n 1)).
Defined.

(** C2 as stated fails on a hard break inside the alternative text of an
    image: its one tag is removed, so that nothing is appended, and
    [lastOut] is the tag all the same. *)
Lemma out_with_tags_disabled_counterexample :
  ~ Spec.emit_strips_every_tag renderer_in_image "<br />".
Proof.
  intros H. destruct (H eq_refl) as [_ Hl].
  vm_compute in Hl. discriminate Hl.
Qed.

(** On a text with two tags the code and the specification part ways: a
    code span keeps its closing tag. *)
Example out_code_span_in_image :
  Spec.remove_all reHtmlTag "<code>x</code>" = "x"
  /\ Spec.count reHtmlTag "<code>x</code>" = 2%nat
  /\ replace false reHtmlTag "" "<code>x</code>" = "x</code>"
  /\ lastOut (out renderer_in_image "<code>x</code>") <> "x</code>"
  /\ buffer (out renderer_in_image "<br />") = buffer renderer_in_image
  /\ lastOut (out renderer_in_image "<br />") = "<br />".
Proof. repeat split; try reflexivity. discriminate. Qed.

(** ** Line breaks while tags are disabled *)

(** C9.  [cr] appends its line feed to the buffer itself and never reads
    [disableTags]: with tags disabled a forced line break appends the line
    feed all the same, under its own condition on [lastOut].  A hard break
    met with tags disabled, as inside the alternative text of an image,
    loses its tag and keeps the line feed. *)
Theorem cr_not_suppressed (r : renderer) :
  0 < disableTags r ->
  (lastOut r <> LF -> buffer (cr r) = buffer r ++ LF)
  /\ (forall d, cr (set_disableTags r d) = set_disableTags (cr r) d)
  /\ hardbreak r = Normal (set_lastOut (set_buffer r (buffer r ++ LF)) LF).
Proof.
  intros Hd. split; [|split].
  - intros N. now rewrite (cr_inside_line r N).
  - intros d. unfold cr. cbn [set_disableTags lastOut].
    destruct (String.eqb (lastOut r) LF); reflexivity.
  - unfold hardbreak. f_equal.
    assert (N : lastOut (out r (tag "br" (Some []) true)) <> LF).
    { rewrite (proj1 (out_fields r _)). discriminate. }
    rewrite (cr_inside_line _ N), (out_buffer_disabled r _ Hd).
    change (replace false reHtmlTag "" (tag "br" (Some []) true)) with "".
    rewrite append_nil_r.
    unfold out. destruct (0 <? disableTags r); reflexivity.
Qed.

Lemma cr_not_suppressed_witness :
  hardbreak renderer_in_image
  = Normal (set_lastOut (set_buffer renderer_in_image
                           ("<img src=" ++ DQ ++ "u" ++ DQ ++ " alt=" ++ DQ ++ LF)) LF).
Proof.
  exact (proj2 (proj2 (cr_not_suppressed renderer_in_image eq_refl))).
Defined.

Example render_hardbreak_in_image :
  render escapeXml_spec renderer0
    [ Event true (with_destination "u" (with_type "Image" node0));
      Event true (with_literal "a" (with_type "Text" node0));
      Event true (with_type "Hardbreak" node0);
      Event true (with_literal "b" (with_type "Text" node0));
      Event false (with_destination "u" (with_type "Image" node0)) ]
  = Returned ("<img src=" ++ DQ ++ "u" ++ DQ ++ " alt=" ++ DQ ++ "a" ++ LF ++ "b"
              ++ DQ ++ " />").
Proof. reflexivity. Qed.

(** ** The loop of [render] *)

Section Loop.

Variable escapeXml : string -> bool -> string.

Lemma run_app (r : renderer) (pre post : list event) :
  run escapeXml r (pre ++ post)
  = match run escapeXml r pre with
    | Normal r1 => run escapeXml r1 post
    | Abrupt e => Abrupt e
    end.
Proof.
  revert r. induction pre as [|ev pre IH]; intros r; [reflexivity|].
  cbn [app run]. destruct (step escapeXml r ev) as [r1|e]; [apply IH | reflexivity].
Qed.

Lemma step_paragraph (r : renderer) (n : node) (b : bool) :
  toLowerCase (type n) = "paragraph" ->
  step escapeXml r (Event b n)
  = paragraph (set_entering r b) n (sourcepos_attrs (set_entering r b) n).
Proof. intros E. unfold step. cbn [ev_node ev_entering]. now rewrite E. Qed.

Lemma step_text (r : renderer) (n : node) (b : bool) :
  toLowerCase (type n) = "text" ->
  step escapeXml r (Event b n) = text (set_entering r b) n.
Proof. intros E. unfold step. cbn [ev_node ev_entering]. now rewrite E. Qed.

(** C10.  [paragraph] reads [node.parent.parent] before anything else.  A
    paragraph event whose node has no parent ends [render] with a
    [TypeError]: the caller gets no string, and it is not the error of an
    unknown node type.  With a parent the handler completes normally. *)
Theorem paragraph_without_parent
  (r r1 : renderer) (pre rest : list event) (n : node) (b : bool) (attrs : list attr) :
  toLowerCase (type n) = "paragraph" ->
  parent n = None ->
  run escapeXml (reset r) pre = Normal r1 ->
  paragraph r1 n attrs = Abrupt TypeError
  /\ render escapeXml r (pre ++ Event b n :: rest) = Raised TypeError
  /\ (forall p, exists r2, paragraph r1 (with_parent p n) attrs = Normal r2).
Proof.
  intros Ht Hp Hpre. split; [|split].
  - unfold paragraph. now rewrite Hp.
  - unfold render. rewrite run_app, Hpre. cbn [run].
    rewrite (step_paragraph r1 n b Ht). unfold paragraph. now rewrite Hp.
  - intros p. unfold paragraph. cbn [with_parent parent].
    destruct (parent p) as [g|];
      [destruct (String.eqb (type g) "List" && listTight g)%bool|];
      destruct (entering r1); eexists; reflexivity.
Qed.

End Loop.

Lemma paragraph_without_parent_witness :
  render escapeXml_spec renderer0
    [Event true (with_type "Document" node0); Event true root_paragraph;
     Event true (with_literal "a" (with_type "Text" node0))]
  = Raised TypeError.
Proof.
  exact (proj1 (proj2 (paragraph_without_parent escapeXml_spec renderer0
           (set_entering (reset renderer0) true)
           [Event true (with_type "Document" node0)]
           [Event true (with_literal "a" (with_type "Text" node0))]
           root_paragraph true [] eq_refl eq_refl eq_refl))).
Defined.

(** ** Paragraphs in tight lists *)

Section Paragraphs.

Variable escapeXml : string -> bool -> string.


End Paragraphs.


Example render_tight_list :
  render escapeXml_spec renderer0
    [ Event true tight_list; Event true tight_item; Event true tight_paragraph;
      Event true tight_text; Event false tight_paragraph; Event false tight_item;
      Event false tight_list ]
  = Returned ("<ul>" ++ LF ++ "<li>a</li>" ++ LF ++ "</ul>" ++ LF).
Proof. reflexivity. Qed.

(** ** Unknown node types *)

Section Dispatch.

Variable escapeXml : string -> bool -> string.








End Dispatch.



Example render_unknown_type :
  render escapeXml_spec renderer0
    [ Event true (with_type "Emph" node0);
      Event true (with_type "Footnote" node0);
      Event true (with_literal "never read" (with_type "Text" node0)) ]
  = Raised (ThrowString "Unknown node type Footnote").
Proof. reflexivity. Qed.

(** The lookup is by property name, so that a node type that spells the name
    of another member of the renderer object is not unknown: [cr] is called
    for the first node, and the field [options] is no function. *)
Example render_member_names :
  render escapeXml_spec renderer0 [Event true (with_type "Cr" node0)] = Returned ""
  /\ render escapeXml_spec renderer0 [Event true (with_type "Options" node0)]
     = Raised TypeError.
Proof. split; reflexivity. Qed.

(** ** The counter of disabled tags *)

Lemma out_disableTags (r : renderer) (s : string) : disableTags (out r s) = disableTags r.
Proof. apply out_fields. Qed.

Lemma cr_disableTags (r : renderer) : disableTags (cr r) = disableTags r.
Proof. apply cr_fields. Qed.

Lemma out_entering (r : renderer) (s : string) : entering (out r s) = entering r.
Proof. apply out_fields. Qed.

Lemma out_options (r : renderer) (s : string) : options (out r s) = options r.
Proof. apply out_fields. Qed.

Lemma out_escape (r : renderer) (s : string) : escape (out r s) = escape r.
Proof. apply out_fields. Qed.

Lemma set_disableTags_disableTags (r : renderer) (d : Z) :
  disableTags (set_disableTags r d) = d.
Proof. reflexivity. Qed.

Lemma HtmlRenderer_disableTags
  (escapeXml : string -> bool -> string) (r : renderer) (o : opts) :
  disableTags (HtmlRenderer escapeXml r o) = disableTags r.
Proof. reflexivity. Qed.

Lemma set_lastOut_disableTags (r : renderer) (l : string) :
  disableTags (set_lastOut r l) = disableTags r.
Proof. reflexivity. Qed.

Lemma set_buffer_disableTags (r : renderer) (b : string) :
  disableTags (set_buffer r b) = disableTags r.
Proof. reflexivity. Qed.

Create Rewrite HintDb fields.
#[local] Hint Rewrite out_disableTags cr_disableTags out_entering out_options out_escape
  set_disableTags_disableTags HtmlRenderer_disableTags set_lastOut_disableTags
  set_buffer_disableTags : fields.

Lemma assoc_image (name : string) :
  assoc name prototype = Some M_image -> name = "image".
Proof.
  cbn [assoc prototype].
  repeat match goal with
    | |- context [String.eqb ?k name] =>
        destruct (String.eqb_spec k name) as [<-|_];
        [first [discriminate | reflexivity]|]
    end.
  discriminate.
Qed.

(** The names under which the lookup finds [image]: one. *)
Lemma get_image (r : renderer) (name : string) :
  get r name = Function M_image <-> name = "image".
Proof.
  split; [|intros ->; reflexivity].
  unfold get.
  destruct (String.eqb name "escape"); [discriminate|].
  destruct (String.eqb name "options"); [discriminate|].
  destruct (String.eqb name "buffer");
    [destruct (String.eqb (buffer r) ""); discriminate|].
  destruct (String.eqb name "entering"); [destruct (entering r); discriminate|].
  destruct (assoc name prototype) as [m|] eqn:E.
  - intros H. injection H as ->. now apply assoc_image.
  - destruct (String.eqb name "__proto__"); discriminate.
Qed.

Section Counter.

Variable escapeXml : string -> bool -> string.

#[local] Opaque out cr.

(** [image] is the only function of the renderer object that moves the
    counter, by one, up or down with the phase of the event. *)
Lemma call_disableTags
  (m : method) (r r' : renderer) (n : node) (attrs : list attr) :
  call escapeXml m r n attrs = Normal r' ->
  disableTags r'
  = disableTags r
    + match m with
      | M_image => if entering r then 1 else -1
      | _ => 0
      end.
Proof.
  destruct m; cbn [call];
    unfold document, text, softbreak, hardbreak, emph, strong, html, link, image,
      code, codeblock, paragraph, blockquote, item, list_, header, htmlblock,
      horizontalrule;
    repeat match goal with
      | |- context [if ?c then _ else _] => destruct c
      | |- context [match ?x with _ => _ end] => destruct x
      end;
    intros H; try discriminate H; injection H as <-;
    autorewrite with fields; lia.
Qed.

#[local] Transparent out cr.

Lemma step_disableTags (r r' : renderer) (ev : event) :
  step escapeXml r ev = Normal r' ->
  disableTags r' = disableTags r + image_delta [ev].
Proof.
  unfold step. cbn [image_delta]. unfold is_image.
  destruct (get (set_entering r (ev_entering ev)) (toLowerCase (type (ev_node ev))))
    as [m| |] eqn:E; [|discriminate|discriminate].
  intros H. apply call_disableTags in H. rewrite H.
  cbn [set_entering disableTags entering].
  destruct (String.eqb_spec (toLowerCase (type (ev_node ev))) "image") as [Ei|Ni].
  - rewrite (proj2 (get_image (set_entering r (ev_entering ev)) _) Ei) in E.
    injection E as <-. lia.
  - destruct m; try lia.
    exfalso. apply Ni.
    exact (proj1 (get_image (set_entering r (ev_entering ev)) _) E).
Qed.

Lemma run_disableTags (r r' : renderer) (events : list event) :
  run escapeXml r events = Normal r' ->
  disableTags r' = disableTags r + image_delta events.
Proof.
  revert r. induction events as [|ev events IH]; intros r H.
  - injection H as <-. cbn [image_delta]. lia.
  - cbn [run] in H. destruct (step escapeXml r ev) as [r1|e] eqn:Es; [|discriminate].
    apply step_disableTags in Es. apply IH in H.
    cbn [image_delta] in *. lia.
Qed.

(** An image event never throws. *)
Lemma step_image (r : renderer) (ev : event) :
  is_image ev = true ->
  step escapeXml r ev = image (set_entering r (ev_entering ev)) (ev_node ev)
  /\ exists r', step escapeXml r ev = Normal r'.
Proof.
  unfold is_image. intros E. apply String.eqb_eq in E.
  assert (Es : step escapeXml r ev = image (set_entering r (ev_entering ev)) (ev_node ev)).
  { unfold step. now rewrite E. }
  split; [exact Es|]. rewrite Es. unfold image.
  repeat match goal with
    | |- context [if ?c then _ else _] => destruct c
    | |- context [match ?x with _ => _ end] => destruct x
    end; eexists; reflexivity.
Qed.

End Counter.

(** Balanced image events: what they add to the counter. *)
Lemma images_balanced_delta (depth : nat) (events : list event) :
  images_balanced depth events = true ->
  image_delta events = - Z.of_nat depth
  /\ forall pre post, events = (pre ++ post)%list -> - Z.of_nat depth <= image_delta pre.
Proof.
  revert depth. induction events as [|ev events IH]; intros depth H.
  - cbn [images_balanced] in H. apply Nat.eqb_eq in H. subst depth.
    split; [reflexivity|].
    intros pre post E. symmetry in E. apply app_eq_nil in E as [-> _].
    cbn [image_delta]. lia.
  - cbn [images_balanced] in H. cbn [image_delta].
    assert (Hpre : forall k : Z,
               (forall pre post, events = (pre ++ post)%list -> k <= image_delta pre) ->
               forall d : Z, d + k >= - Z.of_nat depth -> 0 >= - Z.of_nat depth ->
               forall pre post, ev :: events = (pre ++ post)%list ->
               (forall pre', pre = ev :: pre' -> image_delta pre = d + image_delta pre') ->
               - Z.of_nat depth <= image_delta pre).
    { intros k Hk d Hd H0 pre post E Hcons.
      destruct pre as [|e pre']; [cbn [image_delta]; lia|].
      cbn [app] in E. injection E as -> E.
      rewrite (Hcons pre' eq_refl). specialize (Hk pre' post E). lia. }
    destruct (is_image ev) eqn:Ei; [destruct (ev_entering ev) eqn:Ee|].
    + destruct (IH (S depth) H) as [Hd Hp]. split; [lia|].
      intros pre post E. apply (Hpre (- Z.of_nat (S depth)) Hp 1 ltac:(lia) ltac:(lia) pre post E).
      intros pre' ->. cbn [image_delta]. now rewrite Ei, Ee.
    + destruct depth as [|depth']; [discriminate|].
      destruct (IH depth' H) as [Hd Hp]. split; [lia|].
      intros pre post E. apply (Hpre (- Z.of_nat depth') Hp (-1) ltac:(lia) ltac:(lia) pre post E).
      intros pre' ->. cbn [image_delta]. now rewrite Ei, Ee.
    + destruct (IH depth H) as [Hd Hp]. split; [lia|].
      intros pre post E. apply (Hpre (- Z.of_nat depth) Hp 0 ltac:(lia) ltac:(lia) pre post E).
      intros pre' ->. cbn [image_delta]. now rewrite Ei.
Qed.

Section Images.

Variable escapeXml : string -> bool -> string.

Lemma image_enter (r : renderer) (n : node) :
  entering r = true ->
  image r n
  = Normal (if disableTags r =? 0
            then set_disableTags
                   (out r ("<img src=" ++ DQ ++ image_src r n ++ DQ ++ " alt=" ++ DQ)) 1
            else set_disableTags r (disableTags r + 1)).
Proof.
  intros E. unfold image, image_src. rewrite E.
  destruct (Z.eqb_spec (disableTags r) 0) as [Ed|Nd]; [|reflexivity].
  destruct (opt_safe (options r) && potentiallyUnsafe (destination n))%bool;
    rewrite out_disableTags, Ed; reflexivity.
Qed.

Lemma image_exit (r : renderer) (n : node) :
  entering r = false ->
  image r n
  = Normal (if disableTags r =? 1
            then out (if truthy (title n)
                      then out (set_disableTags r 0) (image_title r n)
                      else set_disableTags r 0)
                     (DQ ++ " />")
            else set_disableTags r (disableTags r - 1)).
Proof.
  intros E. unfold image, image_title. rewrite E.
  cbn [set_disableTags disableTags].
  destruct (Z.eqb_spec (disableTags r) 1) as [Ed|Nd].
  - rewrite Ed. cbn [Z.sub Z.add Z.opp Z.pos_sub Z.eqb].
    destruct (title n) as [t|]; [destruct (truthy (Some t))|]; reflexivity.
  - destruct (Z.eqb_spec (disableTags r - 1) 0) as [E0|_]; [lia | reflexivity].
Qed.

(** An image inside an image: the events of the inner one change nothing
    but the counter, and the outer one is written once. *)
Lemma run_nested_images (r : renderer) (n1 n2 : node) :
  toLowerCase (type n1) = "image" ->
  toLowerCase (type n2) = "image" ->
  exists r',
    run escapeXml (reset r)
      [Event true n1; Event true n2; Event false n2; Event false n1] = Normal r'
    /\ run escapeXml (reset r) [Event true n1; Event false n1] = Normal r'
    /\ disableTags r' = 0
    /\ buffer r'
       = "<img src=" ++ DQ ++ image_src r n1 ++ DQ ++ " alt=" ++ DQ
         ++ image_title r n1 ++ DQ ++ " />".
Proof.
  intros E1 E2. cbn [run]. unfold step. cbn [ev_node ev_entering].
  rewrite E1, E2. unfold image_src, image_title.
  cbn [get String.eqb Ascii.eqb Bool.eqb assoc prototype call].
  unfold image.
  cbn [reset set_entering entering disableTags options escape Z.eqb].
  destruct (opt_safe (options r) && potentiallyUnsafe (destination n1))%bool;
    (destruct (title n1) as [t|]; [destruct (truthy (Some t))|]);
    eexists; (split; [reflexivity|]); (split; [reflexivity|]);
    (split; [reflexivity|]);
    cbn; rewrite ?append_assoc, ?append_nil_r; reflexivity.
Qed.

(** C5.  Over a sequence of events whose image events are balanced, the
    counter [disableTags] goes one up on every image entered and one down on
    every image left, and no other event moves it; it is back at its value
    from before the sequence at the end, and it never falls below that
    value on the way, so that from zero it never is negative.  For an image
    inside an image the counter ends at zero and the output is that of the
    outer image alone: one tag, the inner image leaving no markup. *)
Theorem image_depth_balanced (r : renderer) (events : list event) :
  images_balanced 0 events = true ->
  0 <= disableTags r ->
  (forall r', run escapeXml r events = Normal r' -> disableTags r' = disableTags r)
  /\ (forall pre post r1,
        events = (pre ++ post)%list -> run escapeXml r pre = Normal r1 ->
        0 <= disableTags r <= disableTags r1)
  /\ (forall r1 ev,
        is_image ev = true ->
        exists r2, step escapeXml r1 ev = Normal r2
                   /\ disableTags r2 = disableTags r1 + (if ev_entering ev then 1 else -1))
  /\ (forall r1 r2 ev,
        is_image ev = false -> step escapeXml r1 ev = Normal r2 ->
        disableTags r2 = disableTags r1)
  /\ (forall n1 n2,
        toLowerCase (type n1) = "image" -> toLowerCase (type n2) = "image" ->
        exists r',
          run escapeXml (reset r)
            [Event true n1; Event true n2; Event false n2; Event false n1] = Normal r'
          /\ run escapeXml (reset r) [Event true n1; Event false n1] = Normal r'
          /\ disableTags r' = 0
          /\ buffer r'
             = "<img src=" ++ DQ ++ image_src r n1 ++ DQ ++ " alt=" ++ DQ
               ++ image_title r n1 ++ DQ ++ " />").
Proof.
  intros Hb H0. destruct (images_balanced_delta 0 events Hb) as [Hd Hp].
  split; [|split; [|split; [|split]]].
  - intros r' Hr. apply run_disableTags in Hr. cbn [Z.of_nat] in Hd. lia.
  - intros pre post r1 E Hr. apply run_disableTags in Hr.
    specialize (Hp pre post E). cbn [Z.of_nat] in Hp. lia.
  - intros r1 ev Hi. destruct (step_image escapeXml r1 ev Hi) as [_ [r2 Hs]].
    exists r2. split; [exact Hs|].
    rewrite (step_disableTags escapeXml r1 r2 ev Hs).
    cbn [image_delta]. rewrite Hi. lia.
  - intros r1 r2 ev Hi Hs.
    rewrite (step_disableTags escapeXml r1 r2 ev Hs).
    cbn [image_delta]. rewrite Hi. lia.
  - exact (run_nested_images r).
Qed.

End Images.

Lemma image_depth_balanced_witness :
  (forall r', run escapeXml_spec (reset renderer0) nested_images = Normal r' ->
              disableTags r' = 0)
  /\ render escapeXml_spec renderer0 nested_images
     = Returned ("<img src=" ++ DQ ++ "a.png" ++ DQ ++ " alt=" ++ DQ ++ "xy" ++ DQ ++ " />").
Proof.
  split; [|reflexivity].
  exact (proj1 (image_depth_balanced escapeXml_spec (reset renderer0) nested_images
                  eq_refl (fun H : (0 ?= 0) = Gt => match H with eq_refl => I end))).
Defined.

(** ** The start attribute of a list *)

Lemma free_of_app (c : ascii) (a b : string) :
  free_of c (a ++ b) = (free_of c a && free_of c b)%bool.
Proof.
  induction a as [|x a IH]; [reflexivity|].
  cbn [append free_of]. rewrite IH. now rewrite andb_assoc.
Qed.

Lemma string_of_uint_no_space (d : Decimal.uint) :
  free_of " " (NilEmpty.string_of_uint d) = true.
Proof. induction d; cbn [NilEmpty.string_of_uint free_of]; auto. Qed.

Lemma number_toString_no_space (k : Z) : free_of " " (number_toString k) = true.
Proof.
  unfold number_toString, NilZero.string_of_int.
  destruct (Z.to_int k) as [d|d]; [|cbn [free_of]; rewrite andb_true_l];
    unfold NilZero.string_of_uint; destruct d;
    try reflexivity; apply string_of_uint_no_space.
Qed.

(** A pattern that begins with a space is not found inside a text without
    spaces. *)
Lemma includes_skip (p x y : string) :
  free_of " " x = true ->
  includes (String " " p) (x ++ y) = includes (String " " p) y.
Proof.
  induction x as [|c x IH]; intros H; [reflexivity|].
  cbn [free_of] in H. apply andb_true_iff in H as [Hc Hx].
  change (String c x ++ y) with (String c (x ++ y)).
  cbn [includes prefix].
  destruct (ascii_dec " " c) as [<-|_]; [discriminate Hc|].
  now rewrite orb_false_l, (IH Hx).
Qed.

Lemma prefix_app (p y : string) : prefix p (p ++ y) = true.
Proof.
  induction p as [|c p IH]; [now destruct y|].
  cbn [append prefix]. destruct (ascii_dec c c) as [_|N]; [exact IH | now elim N].
Qed.

Lemma includes_here (p s : string) : prefix p s = true -> includes p s = true.
Proof. intros H. destruct s; cbn [includes]; now rewrite H. Qed.

Lemma includes_app (p x y : string) : includes p (x ++ p ++ y) = true.
Proof.
  induction x as [|c x IH].
  - exact (includes_here p (p ++ y) (prefix_app p y)).
  - change (String c x ++ p ++ y) with (String c (x ++ p ++ y)).
    cbn [includes]. rewrite IH. apply orb_true_r.
Qed.

Section Lists.

Variable escapeXml : string -> bool -> string.

Lemma step_list (r : renderer) (n : node) (b : bool) :
  toLowerCase (type n) = "list" ->
  step escapeXml r (Event b n)
  = list_ (set_entering r b) n (sourcepos_attrs (set_entering r b) n).
Proof. intros E. unfold step. cbn [ev_node ev_entering]. now rewrite E. Qed.

(** The attribute that the dispatcher computes holds no start attribute. *)
Lemma sourcepos_attrs_text (r : renderer) (n : node) (name rest : string) :
  free_of " " name = true ->
  includes (" start=" ++ DQ) ("<" ++ name ++ attrs_text (sourcepos_attrs r n) ++ rest)
  = includes (" start=" ++ DQ) rest.
Proof.
  intros Hname.
  change (" start=" ++ DQ) with (String " " ("start=" ++ DQ)).
  change ("<" ++ name ++ attrs_text (sourcepos_attrs r n) ++ rest)
    with (("<" ++ name) ++ attrs_text (sourcepos_attrs r n) ++ rest).
  rewrite (includes_skip _ ("<" ++ name)) by (cbn [append free_of]; exact Hname).
  unfold sourcepos_attrs.
  destruct (opt_sourcepos (options r)); [|reflexivity].
  destruct (sourcepos n) as [[[l1 c1] [l2 c2]]|]; [|reflexivity].
  cbn [push app attrs_text fst snd].
  set (v := number_toString l1 ++ ":" ++ number_toString c1 ++ "-"
            ++ number_toString l2 ++ ":" ++ number_toString c2).
  assert (Hv : free_of " " (("data-sourcepos=" ++ DQ) ++ v ++ DQ) = true).
  { unfold v. rewrite !free_of_app, !number_toString_no_space. reflexivity. }
  replace ((" " ++ "data-sourcepos" ++ "=" ++ DQ ++ v ++ DQ ++ "") ++ rest)
    with (String " " ((("data-sourcepos=" ++ DQ) ++ v ++ DQ) ++ rest))
    by (rewrite !append_assoc; reflexivity).
  rewrite <- (includes_skip ("start=" ++ DQ) _ rest Hv).
  set (tail := (("data-sourcepos=" ++ DQ) ++ v ++ DQ) ++ rest).
  cbn [includes]. 
  replace (prefix (String " " ("start=" ++ DQ)) (String " " tail)) with false;
    [reflexivity|].
  unfold tail. reflexivity.
Qed.

Lemma attrs_text_push (attrs : list attr) (a : attr) :
  attrs_text (push attrs a)
  = attrs_text attrs ++ " " ++ fst a ++ "=" ++ DQ ++ snd a ++ DQ.
Proof.
  unfold push. induction attrs as [|b attrs IH]; cbn [app attrs_text].
  - rewrite ?append_assoc, ?append_nil_r. reflexivity.
  - rewrite IH. rewrite ?append_assoc. reflexivity.
Qed.

(** C4 (amended).  Entering a list forces a line break, emits the opening
    tag and forces a line break; the opening tag holds a start attribute if
    and only if [listStart] is there and is not 1, whatever the kind of the
    list, and the attribute then holds that number. *)
Theorem list_start_attribute (r : renderer) (n : node) :
  toLowerCase (type n) = "list" ->
  exists open_tag,
    step escapeXml r (Event true n)
    = Normal (cr (out (cr (set_entering r true)) open_tag))
    /\ (includes (" start=" ++ DQ) open_tag = true
        <-> exists k, listStart n = Some k /\ k <> 1)
    /\ (forall k, listStart n = Some k -> k <> 1 ->
        includes (" start=" ++ DQ ++ number_toString k ++ DQ) open_tag = true).
Proof.
  intros Ht. rewrite (step_list r n true Ht). unfold list_.
  cbn [set_entering entering].
  set (r1 := set_entering r true).
  set (tagname := match listType n with
                  | Some t => if String.eqb t "Bullet" then "ul" else "ol"
                  | None => "ol"
                  end).
  assert (Hname : free_of " " tagname = true).
  { unfold tagname. destruct (listType n) as [t|];
      [destruct (String.eqb t "Bullet")|]; reflexivity. }
  eexists. split; [reflexivity|].
  rewrite tag_shape.
  destruct (listStart n) as [k|].
  - destruct (Z.eqb_spec k 1) as [E1|N1]; cbn [negb].
    + rewrite (sourcepos_attrs_text r1 n tagname _ Hname). split.
      * split; [discriminate|]. intros (k' & Hk & Nk). injection Hk as <-. contradiction.
      * intros k' Hk Nk. injection Hk as <-. contradiction.
    + rewrite attrs_text_push. cbn [fst snd]. rewrite !append_assoc.
      rewrite (sourcepos_attrs_text r1 n tagname _ Hname). split.
      * split; [intros _; now exists k | intros _].
        exact (includes_app (" start=" ++ DQ) ""
                 (number_toString k ++ DQ ++ "" ++ ">")).
      * intros k' Hk _. injection Hk as <-.
        replace ("<" ++ tagname ++ attrs_text (sourcepos_attrs r1 n) ++
                 " " ++ "start" ++ "=" ++ DQ ++ number_toString k ++ DQ ++ "" ++ ">")
          with (("<" ++ tagname ++ attrs_text (sourcepos_attrs r1 n))
                ++ (" start=" ++ DQ ++ number_toString k ++ DQ) ++ ">")
          by (rewrite !append_assoc; reflexivity).
        apply includes_app.
  - rewrite (sourcepos_attrs_text r1 n tagname _ Hname). split.
    + split; [discriminate|]. intros (k' & Hk & _). discriminate Hk.
    + intros k' Hk. discriminate Hk.
Qed.

End Lists.

(** C4 as stated fails on a bullet list whose start is 5: its opening tag
    holds the start attribute. *)
Lemma list_start_attribute_counterexample :
  ~ Spec.list_start_iff_ordered escapeXml_spec renderer0 bullet_list_5.
Proof.
  intros H.
  destruct (H ("<ul start=" ++ DQ ++ "5" ++ DQ ++ ">" ++ LF) eq_refl) as [H1 _].
  destruct (H1 eq_refl) as [Ho _]. discriminate Ho.
Qed.

Lemma list_start_attribute_witness :
  exists open_tag,
    step escapeXml_spec (reset renderer0) (Event true ordered_list_5)
    = Normal (cr (out (cr (set_entering (reset renderer0) true)) open_tag))
    /\ includes (" start=" ++ DQ ++ "5" ++ DQ) open_tag = true.
Proof.
  destruct (list_start_attribute escapeXml_spec (reset renderer0) ordered_list_5 eq_refl)
    as (open_tag & Hs & _ & Hk).
  exists open_tag. split; [exact Hs|].
  exact (Hk 5 eq_refl (fun H : 5 = 1 => match H with eq_refl => I end)).
Defined.

Example render_lists :
  render escapeXml_spec renderer0 [Event true ordered_list_5]
  = Returned ("<ol start=" ++ DQ ++ "5" ++ DQ ++ ">" ++ LF)
  /\ render escapeXml_spec renderer0 [Event true bullet_list_5]
     = Returned ("<ul start=" ++ DQ ++ "5" ++ DQ ++ ">" ++ LF)
  /\ render escapeXml_spec renderer0
       [Event true (with_list "Ordered" (Some 1) false (with_type "List" node0))]
     = Returned ("<ol>" ++ LF)
  /\ render escapeXml_spec renderer0
       [Event true (with_list "Ordered" None false (with_type "List" node0))]
     = Returned ("<ol>" ++ LF).
Proof. repeat split; reflexivity. Qed.

(** * Further properties of the renderer *)

(** ** What every method does to the buffer and to the configuration *)

(** [r'] holds the buffer of [r] and what was appended to it since. *)
Lemma out_appends (r : renderer) (s : string) :
  exists t, buffer (out r s) = buffer r ++ t.
Proof.
  unfold out. destruct (0 <? disableTags r); eexists; reflexivity.
Qed.

Lemma cr_appends (r : renderer) : exists t, buffer (cr r) = buffer r ++ t.
Proof.
  unfold cr. destruct (String.eqb (lastOut r) LF).
  - exists "". now rewrite append_nil_r.
  - eexists. reflexivity.
Qed.

Lemma appends_out (r x : renderer) (s : string) :
  (exists t, buffer x = buffer r ++ t) -> exists t, buffer (out x s) = buffer r ++ t.
Proof.
  intros [t Ht]. destruct (out_appends x s) as [u Hu].
  exists (t ++ u). now rewrite Hu, Ht, append_assoc.
Qed.

Lemma appends_cr (r x : renderer) :
  (exists t, buffer x = buffer r ++ t) -> exists t, buffer (cr x) = buffer r ++ t.
Proof.
  intros [t Ht]. destruct (cr_appends x) as [u Hu].
  exists (t ++ u). now rewrite Hu, Ht, append_assoc.
Qed.

Lemma appends_refl (r : renderer) : exists t, buffer r = buffer r ++ t.
Proof. exists "". now rewrite append_nil_r. Qed.

Ltac handler_cases :=
  unfold document, text, softbreak, hardbreak, emph, strong, html, link, image,
    code, codeblock, paragraph, blockquote, item, list_, header, htmlblock,
    horizontalrule;
  cbv zeta;
  repeat match goal with
    | |- context [if ?c then _ else _] => destruct c
    | |- context [match ?x with _ => _ end] => destruct x
    end.

Ltac appends_steps :=
  repeat first
    [ apply appends_refl
    | apply appends_out
    | apply appends_cr
    | match goal with
      | |- exists t, buffer (set_disableTags ?x _) = _ =>
          change (buffer (set_disableTags x _)) with (buffer x)
      | |- exists t, buffer (HtmlRenderer _ ?x _) = _ =>
          change (buffer (HtmlRenderer _ x _)) with (buffer x)
      end ].

Section Frame.

Variable escapeXml : string -> bool -> string.

#[local] Opaque out cr.

Lemma call_appends (m : method) (r r' : renderer) (n : node) (attrs : list attr) :
  call escapeXml m r n attrs = Normal r' -> exists t, buffer r' = buffer r ++ t.
Proof.
  destruct m; cbn [call]; handler_cases;
    intros H; try discriminate H; injection H as <-; appends_steps.
  eexists. reflexivity.
Qed.

#[local] Transparent out cr.

Lemma step_appends (r r' : renderer) (ev : event) :
  step escapeXml r ev = Normal r' -> exists t, buffer r' = buffer r ++ t.
Proof.
  unfold step.
  destruct (get (set_entering r (ev_entering ev)) (toLowerCase (type (ev_node ev))))
    as [m| |]; [|discriminate|discriminate].
  intros H. exact (call_appends m _ r' _ _ H).
Qed.

Lemma run_appends (r r' : renderer) (events : list event) :
  run escapeXml r events = Normal r' -> exists t, buffer r' = buffer r ++ t.
Proof.
  revert r. induction events as [|ev events IH]; intros r H.
  - injection H as <-. apply appends_refl.
  - cbn [run] in H. destruct (step escapeXml r ev) as [r1|e] eqn:Es; [|discriminate].
    destruct (step_appends r r1 ev Es) as [t Ht].
    destruct (IH r1 H) as [u Hu].
    exists (t ++ u). now rewrite Hu, Ht, append_assoc.
Qed.

(** X1.  The buffer is only ever appended to: when [render] returns a
    string for a sequence of events, it returns a string for every prefix of
    the sequence too, and that string is a prefix of the first. *)
Theorem render_extends_prefix (r : renderer) (pre post : list event) (output : string) :
  render escapeXml r (pre ++ post) = Returned output ->
  exists output_pre t,
    render escapeXml r pre = Returned output_pre /\ output = output_pre ++ t.
Proof.
  unfold render. rewrite run_app.
  destruct (run escapeXml (reset r) pre) as [r1|e]; [|discriminate].
  destruct (run escapeXml r1 post) as [r2|e] eqn:E2; [|discriminate].
  intros H. injection H as <-.
  destruct (run_appends r1 r2 post E2) as [t Ht].
  now exists (buffer r1), t.
Qed.

End Frame.

Lemma render_extends_prefix_witness :
  exists output_pre t,
    render escapeXml_spec renderer0
      [Event true tight_list; Event true tight_item; Event true tight_paragraph;
       Event true tight_text] = Returned output_pre
    /\ "<ul>" ++ LF ++ "<li>a</li>" ++ LF ++ "</ul>" ++ LF = output_pre ++ t.
Proof.
  exact (render_extends_prefix escapeXml_spec renderer0
           [Event true tight_list; Event true tight_item; Event true tight_paragraph;
            Event true tight_text]
           [Event false tight_paragraph; Event false tight_item; Event false tight_list]
           _ eq_refl).
Defined.

(** ** Forced line breaks *)

Lemma at_line_start_LF (s : string) : at_line_start (s ++ LF) = true.
Proof.
  induction s as [|c s IH]; [reflexivity|].
  change (String c s ++ LF) with (String c (s ++ LF)).
  destruct s as [|c' s]; [reflexivity|]. exact IH.
Qed.

Lemma invariant_out (r : renderer) (s : string) : line_start_invariant (out r s).
Proof.
  unfold line_start_invariant. rewrite (proj1 (out_fields r s)). intros ->.
  unfold out. destruct (0 <? disableTags r); apply at_line_start_LF.
Qed.

Lemma invariant_cr (r : renderer) : line_start_invariant r -> line_start_invariant (cr r).
Proof.
  intros Hr. unfold cr. destruct (String.eqb_spec (lastOut r) LF) as [E|N].
  - exact Hr.
  - intros _. apply at_line_start_LF.
Qed.

Ltac invariant_steps :=
  repeat first
    [ assumption
    | apply invariant_out
    | apply invariant_cr
    | match goal with
      | |- line_start_invariant (set_disableTags ?x _) =>
          change (line_start_invariant x)
      | |- line_start_invariant (HtmlRenderer _ ?x _) =>
          change (line_start_invariant x)
      end ].

Section LineStart.

Variable escapeXml : string -> bool -> string.

#[local] Opaque out cr.

Lemma call_invariant (m : method) (r r' : renderer) (n : node) (attrs : list attr) :
  line_start_invariant r ->
  call escapeXml m r n attrs = Normal r' -> line_start_invariant r'.
Proof.
  intros Hr. destruct m; cbn [call]; handler_cases;
    intros H; try discriminate H; injection H as <-; invariant_steps.
  intros E. discriminate E.
Qed.

#[local] Transparent out cr.

Lemma run_invariant (r r' : renderer) (events : list event) :
  line_start_invariant r ->
  run escapeXml r events = Normal r' -> line_start_invariant r'.
Proof.
  revert r. induction events as [|ev events IH]; intros r Hr H.
  - now injection H as <-.
  - cbn [run] in H. destruct (step escapeXml r ev) as [r1|e] eqn:Es; [|discriminate].
    apply (IH r1); [|exact H].
    unfold step in Es.
    destruct (get (set_entering r (ev_entering ev)) (toLowerCase (type (ev_node ev))))
      as [m| |]; [|discriminate|discriminate].
    exact (call_invariant m (set_entering r (ev_entering ev)) r1 _ _ Hr Es).
Qed.

(** X2.  In every state that [render] reaches, a forced line break leaves
    the output empty or ending with a line feed; where [cr] appends nothing,
    because [lastOut] is the line feed, the output was so already. *)
Theorem cr_reaches_line_start (r r' : renderer) (events : list event) :
  run escapeXml (reset r) events = Normal r' ->
  at_line_start (buffer (cr r')) = true
  /\ (lastOut r' = LF -> at_line_start (buffer r') = true).
Proof.
  intros H.
  assert (Hi : line_start_invariant r').
  { apply (run_invariant (reset r) r' events); [|exact H]. intros _. reflexivity. }
  split; [|exact Hi].
  apply (invariant_cr r' Hi). apply cr_fields.
Qed.

End LineStart.

Lemma cr_reaches_line_start_witness :
  at_line_start
    (buffer (cr (out (set_entering (reset renderer0) true) "<p>"))) = true.
Proof.
  exact (proj1 (cr_reaches_line_start escapeXml_spec renderer0 _
                  [Event true loose_paragraph] eq_refl)).
Defined.

(** ** Node types with a handler *)

Lemma has_handler_get (n : node) :
  has_handler n = true ->
  exists m, (forall r, get r (toLowerCase (type n)) = Function m)
            /\ is_handler m = true
            /\ (m = M_paragraph <-> toLowerCase (type n) = "paragraph").
Proof.
  unfold has_handler, handler_names. cbn [existsb].
  repeat match goal with
    | |- context [String.eqb (toLowerCase (type n)) ?k] =>
        destruct (String.eqb_spec (toLowerCase (type n)) k) as [->|_];
        [intros _; eexists; split; [intros r; reflexivity|];
         split; [reflexivity|]; split; [try discriminate; reflexivity|];
         try discriminate; reflexivity|]
    end.
  discriminate.
Qed.

Lemma config_out (r : renderer) (s : string) : config (out r s) = config r.
Proof. unfold out. destruct (0 <? disableTags r); reflexivity. Qed.

Lemma config_cr (r : renderer) : config (cr r) = config r.
Proof. unfold cr. destruct (String.eqb (lastOut r) LF); reflexivity. Qed.

Ltac config_steps :=
  repeat first
    [ reflexivity
    | rewrite config_out
    | rewrite config_cr
    | match goal with
      | |- config (set_disableTags ?x _) = _ =>
          change (config (set_disableTags x _)) with (config x)
      end ].

Section Configuration.

Variable escapeXml : string -> bool -> string.

#[local] Opaque out cr.

Lemma call_config (m : method) (r r' : renderer) (n : node) (attrs : list attr) :
  is_handler m = true ->
  call escapeXml m r n attrs = Normal r' -> config r' = config r.
Proof.
  destruct m; intros Hm; try discriminate Hm; cbn [call]; handler_cases;
    intros H; try discriminate H; injection H as <-; config_steps.
Qed.

#[local] Transparent out cr.

Lemma step_config (r r' : renderer) (ev : event) :
  has_handler (ev_node ev) = true ->
  step escapeXml r ev = Normal r' -> config r' = config r.
Proof.
  intros Hh. destruct (has_handler_get (ev_node ev) Hh) as (m & Hg & Hm & _).
  unfold step. rewrite Hg. intros H.
  exact (call_config m (set_entering r (ev_entering ev)) r' _ _ Hm H).
Qed.

Lemma run_config (r r' : renderer) (events : list event) :
  known_types events = true ->
  run escapeXml r events = Normal r' -> config r' = config r.
Proof.
  revert r. induction events as [|ev events IH]; intros r Hk H.
  - now injection H as <-.
  - cbn [known_types forallb] in Hk. apply andb_true_iff in Hk as [Hh Hk].
    cbn [run] in H. destruct (step escapeXml r ev) as [r1|e] eqn:Es; [|discriminate].
    rewrite (IH r1 Hk H). exact (step_config r r1 ev Hh Es).
Qed.

Lemma reset_config (r r' : renderer) : config r' = config r -> reset r' = reset r.
Proof.
  unfold config, reset. intros H. injection H as -> -> ->. reflexivity.
Qed.

(** X3.  Over events whose node types all have handlers, [render] leaves
    the configuration of the renderer object (the soft break, the escape
    function, the options) as it found it, so that the renderer left by one
    call renders every later sequence as the renderer before the call
    does. *)
Theorem render_keeps_configuration (r r' : renderer) (events : list event) :
  known_types events = true ->
  run escapeXml (reset r) events = Normal r' ->
  config r' = config r
  /\ forall later, render escapeXml r' later = render escapeXml r later.
Proof.
  intros Hk H.
  assert (Hc : config r' = config r) by exact (run_config (reset r) r' events Hk H).
  split; [exact Hc|].
  intros later. unfold render. now rewrite (reset_config r r' Hc).
Qed.

(** X4.  [render] returns a string for every sequence of events whose node
    types all have handlers and whose paragraphs all have a parent: nothing
    else in the handlers throws. *)
Theorem render_returns (r : renderer) (events : list event) :
  forallb well_formed events = true ->
  exists output, render escapeXml r events = Returned output.
Proof.
  intros Hw.
  assert (H : forall r0, exists r', run escapeXml r0 events = Normal r').
  { induction events as [|ev events IH]; intros r0; [now exists r0|].
    cbn [forallb] in Hw. apply andb_true_iff in Hw as [Hev Hw].
    unfold well_formed in Hev. apply andb_true_iff in Hev as [Hh Hp].
    destruct (has_handler_get (ev_node ev) Hh) as (m & Hg & Hm & Hpar).
    assert (Hs : exists r1, step escapeXml r0 ev = Normal r1).
    { unfold step. rewrite Hg.
      destruct m; try discriminate Hm; cbn [call];
        try (handler_cases; eexists; reflexivity).
      rewrite (proj1 Hpar eq_refl) in Hp. cbn [String.eqb Ascii.eqb Bool.eqb negb orb] in Hp.
      unfold paragraph. destruct (parent (ev_node ev)) as [p|]; [|discriminate Hp].
      cbv zeta.
      repeat match goal with
        | |- context [if ?c then _ else _] => destruct c
        | |- context [match ?x with _ => _ end] => destruct x
        end; eexists; reflexivity. }
    destruct Hs as [r1 Hs]. cbn [run]. rewrite Hs. apply (IH Hw). }
  destruct (H (reset r)) as [r' Hr]. exists (buffer r'). unfold render. now rewrite Hr.
Qed.

End Configuration.

Lemma render_keeps_configuration_witness :
  render escapeXml_spec
    (out (set_entering (reset renderer0) true) "<p>")
    [Event true (with_type "Emph" node0)]
  = render escapeXml_spec renderer0 [Event true (with_type "Emph" node0)].
Proof.
  exact (proj2 (render_keeps_configuration escapeXml_spec renderer0 _
                  [Event true loose_paragraph] eq_refl eq_refl)
               [Event true (with_type "Emph" node0)]).
Defined.

Lemma render_returns_witness :
  exists output,
    render escapeXml_spec renderer0
      [ Event true tight_list; Event true tight_item; Event true tight_paragraph;
        Event true tight_text; Event false tight_paragraph; Event false tight_item;
        Event false tight_list ] = Returned output.
Proof.
  exact (render_returns escapeXml_spec renderer0
           [ Event true tight_list; Event true tight_item; Event true tight_paragraph;
             Event true tight_text; Event false tight_paragraph; Event false tight_item;
             Event false tight_list ] eq_refl).
Defined.

(** ** Safe mode *)

Section SafeMode.

Variable escapeXml : string -> bool -> string.

(** A change of the nodes that no handler sees under some condition on the
    options is not seen in the output. *)
Lemma run_map_node (ok : opts -> bool) (f : node -> node) :
  (forall n, has_handler (f n) = has_handler n) ->
  (forall r b n,
     ok (options r) = true -> has_handler n = true ->
     step escapeXml r (Event b (f n)) = step escapeXml r (Event b n)) ->
  forall (events : list event) (r : renderer),
    ok (options r) = true ->
    known_types events = true ->
    run escapeXml r (map (map_node f) events) = run escapeXml r events.
Proof.
  intros Hf Hstep. induction events as [|ev events IH]; intros r Hs Hk; [reflexivity|].
  cbn [known_types forallb] in Hk. apply andb_true_iff in Hk as [Hh Hk].
  cbn [map run]. unfold map_node at 1. destruct ev as [b n]. cbn [ev_entering ev_node] in *.
  rewrite (Hstep r b n Hs Hh).
  destruct (step escapeXml r (Event b n)) as [r1|e] eqn:Es; [|reflexivity].
  apply IH; [|exact Hk].
  assert (Hc : config r1 = config r) by exact (step_config escapeXml r r1 (Event b n) Hh Es).
  unfold config in Hc. injection Hc as _ _ ->. exact Hs.
Qed.

Lemma step_redact_raw (r : renderer) (b : bool) (n : node) :
  opt_safe (options r) = true ->
  step escapeXml r (Event b (redact_raw n)) = step escapeXml r (Event b n).
Proof.
  intros Hs. unfold redact_raw.
  destruct (String.eqb_spec (toLowerCase (type n)) "html") as [E|_]; cbn [orb].
  - unfold step. cbn [ev_node ev_entering with_literal type]. rewrite E.
    cbn [get String.eqb Ascii.eqb Bool.eqb assoc prototype call].
    unfold html. cbn [set_entering options]. now rewrite Hs.
  - destruct (String.eqb_spec (toLowerCase (type n)) "htmlblock") as [E|_];
      [|reflexivity].
    unfold step. cbn [ev_node ev_entering with_literal type]. rewrite E.
    cbn [get String.eqb Ascii.eqb Bool.eqb assoc prototype call].
    unfold htmlblock. cbv zeta.
    assert (Ho : options (cr (set_entering r b)) = options r)
      by exact (proj1 (proj2 (proj2 (proj2 (cr_fields (set_entering r b)))))).
    now rewrite Ho, Hs.
Qed.

Lemma step_redact_destination (r : renderer) (b : bool) (n : node) :
  opt_safe (options r) = true ->
  step escapeXml r (Event b (redact_destination n)) = step escapeXml r (Event b n).
Proof.
  intros Hs. unfold redact_destination.
  destruct (potentiallyUnsafe (destination n)) eqn:Hu;
    [|now rewrite andb_false_r].
  rewrite andb_true_r.
  destruct (String.eqb_spec (toLowerCase (type n)) "link") as [E|_]; cbn [orb].
  - unfold step. cbn [ev_node ev_entering with_destination type]. rewrite E.
    cbn [get String.eqb Ascii.eqb Bool.eqb assoc prototype call].
    unfold link. cbn [set_entering options entering with_destination destination title].
    rewrite Hs, Hu.
    change (potentiallyUnsafe "javascript:") with true. reflexivity.
  - destruct (String.eqb_spec (toLowerCase (type n)) "image") as [E|_];
      [|reflexivity].
    unfold step. cbn [ev_node ev_entering with_destination type]. rewrite E.
    cbn [get String.eqb Ascii.eqb Bool.eqb assoc prototype call].
    unfold image. cbn [set_entering options entering with_destination destination title].
    rewrite Hs, Hu.
    change (potentiallyUnsafe "javascript:") with true. reflexivity.
Qed.

(** X5.  In safe mode the output of [render] does not depend on the literal
    of any raw HTML node, inline or block: with all those literals emptied
    the same string comes out. *)
Theorem safe_mode_hides_raw_html (r : renderer) (events : list event) :
  opt_safe (options r) = true ->
  known_types events = true ->
  render escapeXml r (map (map_node redact_raw) events) = render escapeXml r events.
Proof.
  intros Hs Hk. unfold render.
  rewrite (run_map_node opt_safe redact_raw); [reflexivity| | |exact Hs|exact Hk].
  - intros n. unfold redact_raw.
    destruct (_ || _)%bool; reflexivity.
  - intros r0 b n H0 _. now apply step_redact_raw.
Qed.

(** X6.  In safe mode the output of [render] does not depend on the
    destination of a link or an image that the filter takes for unsafe:
    with another unsafe destination in its place the same string comes
    out. *)
Theorem safe_mode_hides_unsafe_destinations (r : renderer) (events : list event) :
  opt_safe (options r) = true ->
  known_types events = true ->
  render escapeXml r (map (map_node redact_destination) events)
  = render escapeXml r events.
Proof.
  intros Hs Hk. unfold render.
  rewrite (run_map_node opt_safe redact_destination); [reflexivity| | |exact Hs|exact Hk].
  - intros n. unfold redact_destination.
    destruct (_ && _)%bool; reflexivity.
  - intros r0 b n H0 _. now apply step_redact_destination.
Qed.

End SafeMode.

Lemma safe_mode_hides_raw_html_witness :
  render escapeXml_spec renderer_safe
    (map (map_node redact_raw)
       [ Event true loose_paragraph;
         Event true (with_literal "<script>x</script>" (with_type "Html" node0));
         Event false loose_paragraph ])
  = render escapeXml_spec renderer_safe
      [ Event true loose_paragraph;
        Event true (with_literal "<script>x</script>" (with_type "Html" node0));
        Event false loose_paragraph ].
Proof.
  exact (safe_mode_hides_raw_html escapeXml_spec renderer_safe
           [ Event true loose_paragraph;
             Event true (with_literal "<script>x</script>" (with_type "Html" node0));
             Event false loose_paragraph ] eq_refl eq_refl).
Defined.

Lemma safe_mode_hides_unsafe_destinations_witness :
  render escapeXml_spec renderer_safe
    (map (map_node redact_destination)
       [ Event true (with_destination "vbscript:msgbox(1)" (with_type "Link" node0));
         Event false (with_destination "vbscript:msgbox(1)" (with_type "Link" node0)) ])
  = render escapeXml_spec renderer_safe
      [ Event true (with_destination "vbscript:msgbox(1)" (with_type "Link" node0));
        Event false (with_destination "vbscript:msgbox(1)" (with_type "Link" node0)) ].
Proof.
  exact (safe_mode_hides_unsafe_destinations escapeXml_spec renderer_safe
           [ Event true (with_destination "vbscript:msgbox(1)" (with_type "Link" node0));
             Event false (with_destination "vbscript:msgbox(1)" (with_type "Link" node0)) ]
           eq_refl eq_refl).
Defined.

(** ** The URL filter, for every URL *)

(** X7.  The filter takes a URL for unsafe exactly when the URL starts with
    [javascript:] or holds [vbscript:], [file:] or [data:] anywhere, letter
    case aside, and does not start with [data:image/] followed by [png],
    [gif], [jpeg] or [webp]. *)
Theorem potentiallyUnsafe_characterized (url : string) :
  potentiallyUnsafe url = true
  <-> (starts_with_ci "javascript:" url = true \/ includes_ci "vbscript:" url = true
       \/ includes_ci "file:" url = true \/ includes_ci "data:" url = true)
      /\ starts_with_ci "data:image/png" url = false
      /\ starts_with_ci "data:image/gif" url = false
      /\ starts_with_ci "data:image/jpeg" url = false
      /\ starts_with_ci "data:image/webp" url = false.
Proof.
  rewrite potentiallyUnsafe_computes, andb_true_iff, negb_true_iff.
  rewrite !orb_true_iff, !orb_false_iff. tauto.
Qed.

Lemma char_eq_colon (b : ascii) : char_eq true b ":" = Ascii.eqb b ":".
Proof. destruct b as [[] [] [] [] [] [] [] []]; reflexivity. Qed.

Lemma starts_with_ci_colon (p s : string) :
  free_of ":" p = false -> free_of ":" s = true -> starts_with_ci p s = false.
Proof.
  revert s. induction p as [|a p IH]; intros s Hp Hs; [discriminate Hp|].
  destruct s as [|b s]; [reflexivity|].
  cbn [free_of] in Hp, Hs. apply andb_true_iff in Hs as [Hb Hs].
  cbn [starts_with_ci].
  destruct (Ascii.eqb_spec a ":") as [->|Na].
  - rewrite char_eq_colon. apply negb_true_iff in Hb. now rewrite Hb.
  - cbn [negb andb] in Hp. rewrite (IH s Hp Hs). apply andb_false_r.
Qed.

Lemma includes_ci_colon (p s : string) :
  free_of ":" p = false -> free_of ":" s = true -> includes_ci p s = false.
Proof.
  intros Hp. induction s as [|b s IH]; intros Hs; cbn [includes_ci];
    rewrite (starts_with_ci_colon p _ Hp Hs); [reflexivity|].
  cbn [free_of] in Hs. apply andb_true_iff in Hs as [_ Hs]. exact (IH Hs).
Qed.

(** X8.  A URL without a colon is never taken for unsafe: a relative
    reference always passes the filter. *)
Theorem potentiallyUnsafe_needs_colon (url : string) :
  free_of ":" url = true -> potentiallyUnsafe url = false.
Proof.
  intros H. rewrite potentiallyUnsafe_computes.
  rewrite (starts_with_ci_colon "javascript:" url eq_refl H).
  rewrite (includes_ci_colon "vbscript:" url eq_refl H).
  rewrite (includes_ci_colon "file:" url eq_refl H).
  rewrite (includes_ci_colon "data:" url eq_refl H). reflexivity.
Qed.

Lemma potentiallyUnsafe_needs_colon_witness :
  potentiallyUnsafe "../images/file.png?data=javascript" = false.
Proof.
  exact (potentiallyUnsafe_needs_colon "../images/file.png?data=javascript" eq_refl).
Defined.

Lemma canonicalize_lower_char (b : ascii) :
  canonicalize true (lower_char b) = canonicalize true b
  \/ ((128 <=? char_code (canonicalize true (lower_char b)))%nat = true
      /\ (128 <=? char_code (canonicalize true b))%nat = true).
Proof.
  destruct b as [[] [] [] [] [] [] [] []];
    first [left; reflexivity | right; split; reflexivity].
Qed.

Lemma canonicalize_below_128 (a : ascii) :
  (char_code a <? 128)%nat = true ->
  (char_code (canonicalize true a) <? 128)%nat = true.
Proof.
  destruct a as [[] [] [] [] [] [] [] []]; intros H;
    first [discriminate H | reflexivity].
Qed.

Lemma char_eq_lower_char (a b : ascii) :
  (char_code a <? 128)%nat = true ->
  char_eq true (lower_char b) a = char_eq true b a.
Proof.
  intros Ha. unfold char_eq.
  destruct (canonicalize_lower_char b) as [->|[H1 H2]]; [reflexivity|].
  apply canonicalize_below_128 in Ha.
  apply Nat.ltb_lt in Ha. apply Nat.leb_le in H1, H2.
  destruct (Ascii.eqb_spec (canonicalize true (lower_char b)) (canonicalize true a))
    as [E|_]; [rewrite E in H1; lia|].
  destruct (Ascii.eqb_spec (canonicalize true b) (canonicalize true a))
    as [E|_]; [rewrite E in H2; lia | reflexivity].
Qed.

Lemma starts_with_ci_toLowerCase (p s : string) :
  below_128 p = true -> starts_with_ci p (toLowerCase s) = starts_with_ci p s.
Proof.
  revert s. induction p as [|a p IH]; intros s Hp; [reflexivity|].
  cbn [below_128] in Hp. apply andb_true_iff in Hp as [Ha Hp].
  destruct s as [|b s]; [reflexivity|].
  cbn [toLowerCase starts_with_ci].
  now rewrite (char_eq_lower_char a b Ha), (IH s Hp).
Qed.

Lemma includes_ci_toLowerCase (p s : string) :
  below_128 p = true -> includes_ci p (toLowerCase s) = includes_ci p s.
Proof.
  intros Hp. induction s as [|b s IH].
  - reflexivity.
  - change (toLowerCase (String b s)) with (String (lower_char b) (toLowerCase s)).
    cbn [includes_ci]. rewrite IH.
    change (String (lower_char b) (toLowerCase s)) with (toLowerCase (String b s)).
    now rewrite (starts_with_ci_toLowerCase p (String b s) Hp).
Qed.

(** X9.  The filter does not look at letter case: a URL and its lower-case
    form are classified alike. *)
Theorem potentiallyUnsafe_ignores_case (url : string) :
  potentiallyUnsafe (toLowerCase url) = potentiallyUnsafe url.
Proof.
  rewrite !potentiallyUnsafe_computes.
  rewrite !(fun p H => starts_with_ci_toLowerCase p url H) by reflexivity.
  rewrite !(fun p H => includes_ci_toLowerCase p url H) by reflexivity.
  reflexivity.
Qed.

(** ** Tags while tags are disabled *)

(** X10.  With tags disabled, a tag that [tag] builds is removed whole when
    it is emitted, as long as its name and its attributes hold no [>]: the
    buffer stays as it is. *)
Theorem out_tag_disabled
  (r : renderer) (name : string) (attrs : option (list attr)) (selfclosing : bool) :
  0 < disableTags r ->
  free_of ">" name = true ->
  free_of ">" (attrs_text (match attrs with Some l => l | None => [] end)) = true ->
  buffer (out r (tag name attrs selfclosing)) = buffer r.
Proof.
  intros Hd Hn Ha. rewrite (out_buffer_disabled r _ Hd), tag_shape.
  set (b := name ++ attrs_text (match attrs with Some l => l | None => [] end)
            ++ (if selfclosing then " /" else "")).
  replace ("<" ++ name ++ attrs_text (match attrs with Some l => l | None => [] end)
           ++ (if selfclosing then " /" else "") ++ ">")
    with ("" ++ "<" ++ b ++ ">" ++ "")
    by (unfold b; cbn [append]; now rewrite !append_assoc).
  unfold replace, exec. rewrite (exec_reHtmlTag true "" b "" eq_refl).
  - now rewrite append_nil_r.
  - unfold b. rewrite !free_of_app, Hn, Ha. now destruct selfclosing.
Qed.

Lemma out_tag_disabled_witness :
  buffer (out renderer_in_image (tag "a" (Some [("href", "/u"); ("title", "t")]) false))
  = buffer renderer_in_image.
Proof.
  exact (out_tag_disabled renderer_in_image "a" (Some [("href", "/u"); ("title", "t")])
           false eq_refl eq_refl eq_refl).
Defined.

(** X11.  With tags disabled, as inside the description of an image, a code
    span loses its opening tag only: its escaped text is appended and the
    closing tag after it. *)
Theorem code_with_tags_disabled (r : renderer) (n : node) :
  0 < disableTags r ->
  exists r',
    code r n = Normal r'
    /\ buffer r' = buffer r ++ escape r (literal n) false ++ "</code>".
Proof.
  intros Hd. unfold code. eexists. split; [reflexivity|].
  rewrite (out_buffer_disabled r _ Hd). reflexivity.
Qed.

Lemma code_with_tags_disabled_witness :
  exists r',
    code renderer_in_image (with_literal "a<b" (with_type "Code" node0)) = Normal r'
    /\ buffer r' = buffer renderer_in_image ++ "a&lt;b" ++ "</code>".
Proof.
  exact (code_with_tags_disabled renderer_in_image
           (with_literal "a<b" (with_type "Code" node0)) eq_refl).
Defined.

(** ** Code blocks *)

Lemma first_word_word (w : string) (c : ascii) (rest : string) :
  no_space w = true -> is_space c = true -> first_word (w ++ String c rest) = w.
Proof.
  intros Hw Hc. induction w as [|a w IH].
  - cbn [append first_word]. now rewrite Hc.
  - cbn [no_space] in Hw. apply andb_true_iff in Hw as [Ha Hw].
    apply negb_true_iff in Ha.
    cbn [append first_word]. now rewrite Ha, (IH Hw).
Qed.

Lemma first_word_whole (w : string) : no_space w = true -> first_word w = w.
Proof.
  induction w as [|a w IH]; intros Hw; [reflexivity|].
  cbn [no_space] in Hw. apply andb_true_iff in Hw as [Ha Hw].
  apply negb_true_iff in Ha. cbn [first_word]. now rewrite Ha, (IH Hw).
Qed.

Lemma codeblock_attrs (r : renderer) (n : node) (attrs : list attr) :
  attrs_text
    (match
       match info n with
       | Some i => if truthy (info n) then Some (first_word i) else None
       | None => None
       end
     with
     | Some w =>
         if (0 <? String.length w)%nat
         then push attrs ("class", "language-" ++ escape r w true)
         else attrs
     | None => attrs
     end)
  = attrs_text attrs ++ language_class r n.
Proof.
  unfold language_class. destruct (info n) as [i|]; [|now rewrite append_nil_r].
  destruct i as [|c i]; [cbn [truthy]; now rewrite append_nil_r|].
  cbn [truthy]. destruct (first_word (String c i)) as [|c' w].
  - cbn [String.length Nat.ltb Nat.leb]. now rewrite append_nil_r.
  - cbn [String.length Nat.ltb Nat.leb]. rewrite attrs_text_push. cbn [fst snd].
    now rewrite !append_assoc.
Qed.

(** X12.  With tags enabled a code block is written after a forced line
    break as the tag [pre], the tag [code] with the attributes it was given
    and then the class of the language, the escaped literal and the two
    closing tags, and a line feed always follows.  The language is the
    first word of the info string; there is no class where the info string
    is absent, empty or begins with white space. *)
Theorem codeblock_output (r : renderer) (n : node) (attrs : list attr) :
  disableTags r <= 0 ->
  (exists r',
     codeblock r n attrs = Normal r'
     /\ lastOut r' = LF
     /\ buffer r'
        = buffer (cr r) ++ "<pre><code" ++ attrs_text attrs ++ language_class r n ++ ">"
          ++ escape r (literal n) false ++ "</code></pre>" ++ LF)
  /\ (forall w c rest,
        info n = Some (w ++ String c rest) ->
        w <> "" -> no_space w = true -> is_space c = true ->
        language_class r n = " class=" ++ DQ ++ "language-" ++ escape r w true ++ DQ)
  /\ (forall w,
        info n = Some w -> w <> "" -> no_space w = true ->
        language_class r n = " class=" ++ DQ ++ "language-" ++ escape r w true ++ DQ)
  /\ (forall c rest,
        info n = Some (String c rest) -> is_space c = true -> language_class r n = "")
  /\ (info n = None \/ info n = Some "" -> language_class r n = "").
Proof.
  intros Hd. split; [|split; [|split; [|split]]].
  - unfold codeblock. cbv zeta. eexists. split; [reflexivity|].
    set (attrs' := match match info n with
                         | Some i => if truthy (info n) then Some (first_word i) else None
                         | None => None
                         end with
                   | Some w => if (0 <? String.length w)%nat
                               then push attrs ("class", "language-" ++ escape r w true)
                               else attrs
                   | None => attrs
                   end).
    assert (Ha : attrs_text attrs' = attrs_text attrs ++ language_class r n)
      by apply codeblock_attrs.
    set (r1 := cr r).
    set (r2 := out r1 (tag "pre" None false ++ tag "code" (Some attrs') false)).
    set (r3 := out r2 (escape r2 (literal n) false)).
    set (r4 := out r3 (tag "/code" None false ++ tag "/pre" None false)).
    assert (D1 : disableTags r1 <= 0) by (unfold r1; rewrite cr_disableTags; exact Hd).
    assert (D2 : disableTags r2 <= 0) by (unfold r2; rewrite out_disableTags; exact D1).
    assert (D3 : disableTags r3 <= 0) by (unfold r3; rewrite out_disableTags; exact D2).
    assert (E2 : escape r2 = escape r).
    { unfold r2, r1. rewrite out_escape. apply cr_fields. }
    assert (N : lastOut r4 <> LF).
    { unfold r4. rewrite (proj1 (out_fields r3 _)). discriminate. }
    split; [apply cr_fields|].
    rewrite (cr_inside_line r4 N). cbn [set_lastOut set_buffer buffer].
    unfold r4. rewrite (out_buffer_enabled r3 _ D3).
    unfold r3. rewrite (out_buffer_enabled r2 _ D2), E2.
    unfold r2. rewrite (out_buffer_enabled r1 _ D1).
    rewrite (tag_shape "code" (Some attrs') false), Ha.
    change (tag "pre" None false) with "<pre>".
    change (tag "/code" None false ++ tag "/pre" None false) with "</code></pre>".
    rewrite !append_assoc. reflexivity.
  - intros w c rest Hi Hw Hs Hc. unfold language_class.
    rewrite Hi, (first_word_word w c rest Hs Hc).
    destruct w; [contradiction | reflexivity].
  - intros w Hi Hw Hs. unfold language_class.
    rewrite Hi, (first_word_whole w Hs).
    destruct w; [contradiction | reflexivity].
  - intros c rest Hi Hc. unfold language_class. rewrite Hi.
    cbn [first_word]. now rewrite Hc.
  - intros [Hi|Hi]; unfold language_class; now rewrite Hi.
Qed.

Lemma codeblock_output_witness :
  exists r',
    codeblock (reset renderer0)
      (with_info "js extra tokens" (with_literal "a<b" (with_type "CodeBlock" node0)))
      [] = Normal r'
    /\ buffer r'
       = "<pre><code class=" ++ DQ ++ "language-js" ++ DQ ++ ">a&lt;b</code></pre>" ++ LF.
Proof.
  destruct (proj1 (codeblock_output (reset renderer0)
                     (with_info "js extra tokens"
                        (with_literal "a<b" (with_type "CodeBlock" node0)))
                     [] (fun H : (0 ?= 0) = Gt => match H with eq_refl => I end)))
    as (r' & Hc & _ & Hb).
  exists r'. split; [exact Hc | exact Hb].
Defined.

(** ** The description of an image *)

Lemma replace_without_lt (s : string) :
  free_of "<" s = true -> replace false reHtmlTag "" s = s.
Proof.
  intros H. unfold replace, exec.
  assert (E : forall b, exec_from false reHtmlTag b s = None).
  { induction s as [|a s IH]; intros b; [reflexivity|].
    cbn [free_of] in H. apply andb_true_iff in H as [Ha Hs].
    apply negb_true_iff in Ha.
    cbn [exec_from]. rewrite matches_reHtmlTag, Ha. now rewrite (IH Hs false). }
  now rewrite E.
Qed.

Lemma concat_cons (x : string) (l : list string) :
  String.concat "" (x :: l) = x ++ String.concat "" l.
Proof.
  destruct l as [|y l]; cbn [String.concat]; [now rewrite append_nil_r | reflexivity].
Qed.

Section AltText.

Variable escapeXml : string -> bool -> string.

Lemma run_texts (ts : list node) (r0 : renderer) :
  0 < disableTags r0 ->
  (forall s, free_of "<" (escape r0 s false) = true) ->
  forallb (fun t => String.eqb (toLowerCase (type t)) "text") ts = true ->
  exists r1,
    run escapeXml r0 (map (Event true) ts) = Normal r1
    /\ buffer r1
       = buffer r0 ++ String.concat "" (map (fun t => escape r0 (literal t) false) ts)
    /\ disableTags r1 = disableTags r0
    /\ config r1 = config r0.
Proof.
  revert r0. induction ts as [|t ts IH]; intros r0 Hd He Ht.
  - exists r0. cbn [map run String.concat]. now rewrite append_nil_r.
  - cbn [forallb] in Ht. apply andb_true_iff in Ht as [Htt Ht].
    apply String.eqb_eq in Htt.
    cbn [map run]. rewrite (step_text escapeXml r0 t true Htt). unfold text.
    set (r' := out (set_entering r0 true) (escape (set_entering r0 true) (literal t) false)).
    assert (Hd' : 0 < disableTags r') by (unfold r'; now rewrite out_disableTags).
    assert (Hc' : config r' = config r0) by (unfold r'; now rewrite config_out).
    assert (He' : escape r' = escape r0) by (unfold r'; now rewrite out_escape).
    assert (Hb' : buffer r' = buffer r0 ++ escape r0 (literal t) false).
    { unfold r'. rewrite out_buffer_disabled by exact Hd.
      cbn [set_entering buffer escape]. now rewrite (replace_without_lt _ (He _)). }
    destruct (IH r' Hd') as (r1 & Hr & Hb & Hdis & Hc).
    + intros s. rewrite He'. apply He.
    + exact Ht.
    + exists r1. split; [exact Hr|]. split; [|split].
      * rewrite Hb, Hb', He', append_assoc. cbn [map].
        now rewrite concat_cons.
      * rewrite Hdis. unfold r'. now rewrite out_disableTags.
      * now rewrite Hc.
Qed.

(** X13.  An image whose children are text nodes, rendered with an escape
    function that leaves no [<] in a text, comes out as one tag: its
    description is the escaped literals of the children one after the other,
    followed by the title when it has one. *)
Theorem image_description (r : renderer) (img : node) (ts : list node) :
  toLowerCase (type img) = "image" ->
  forallb (fun t => String.eqb (toLowerCase (type t)) "text") ts = true ->
  (forall s, free_of "<" (escape r s false) = true) ->
  render escapeXml r ((Event true img :: map (Event true) ts) ++ [Event false img])
  = Returned ("<img src=" ++ DQ ++ image_src r img ++ DQ ++ " alt=" ++ DQ
              ++ String.concat "" (map (fun t => escape r (literal t) false) ts)
              ++ image_title r img ++ DQ ++ " />").
Proof.
  intros Hi Ht He. unfold render. rewrite run_app.
  assert (Si : forall r0 b, step escapeXml r0 (Event b img) = image (set_entering r0 b) img).
  { intros r0 b. apply (step_image escapeXml r0 (Event b img)).
    unfold is_image. cbn [ev_node]. now rewrite Hi. }
  cbn [run]. rewrite Si, (image_enter (set_entering (reset r) true) img eq_refl).
  cbn [set_entering reset disableTags Z.eqb].
  set (r0 := set_disableTags _ 1).
  assert (Hc0 : config r0 = config r) by reflexivity.
  assert (He0 : escape r0 = escape r) by reflexivity.
  destruct (run_texts ts r0) as (r1 & Hr & Hb & Hd & Hc).
  { reflexivity. }
  { intros s. rewrite He0. apply He. }
  { exact Ht. }
  rewrite Hr. cbn [run]. rewrite Si, (image_exit (set_entering r1 false) img eq_refl).
  change (disableTags (set_entering r1 false)) with (disableTags r1). rewrite Hd.
  change (disableTags r0 =? 1) with true. cbv iota.
  assert (He1 : escape r1 = escape r).
  { rewrite Hc0 in Hc. unfold config in Hc. now injection Hc. }
  assert (Ti : forall x, escape x = escape r -> image_title x img = image_title r img).
  { intros x Hx. unfold image_title. now rewrite Hx. }
  set (rz := set_disableTags (set_entering r1 false) 0).
  assert (Hbz : buffer rz = buffer r1) by reflexivity.
  assert (Hez : escape rz = escape r) by exact He1.
  assert (Hdz : disableTags rz <= 0) by (cbn; lia).
  f_equal.
  assert (Hbuf1 : buffer r0
                  = "<img src=" ++ DQ ++ image_src r img ++ DQ ++ " alt=" ++ DQ).
  { unfold r0. cbn [set_disableTags buffer]. rewrite out_buffer_enabled by (cbn; lia).
    cbn [buffer append]. unfold image_src. reflexivity. }
  rewrite (Ti (set_entering r1 false) He1).
  destruct (truthy (title img)) eqn:Et.
  - rewrite out_buffer_enabled by (rewrite out_disableTags; exact Hdz).
    rewrite out_buffer_enabled by exact Hdz.
    rewrite Hbz, Hb, Hbuf1, He0. now rewrite !append_assoc.
  - rewrite out_buffer_enabled by exact Hdz.
    rewrite Hbz, Hb, Hbuf1, He0.
    assert (Hti : image_title r img = "").
    { unfold image_title. destruct (title img); [now rewrite Et | reflexivity]. }
    rewrite Hti. now rewrite !append_assoc.
Qed.

End AltText.

Lemma escapeXml_spec_without_lt (s : string) (b : bool) :
  free_of "<" (escapeXml_spec s b) = true.
Proof.
  induction s as [|c s IH]; [reflexivity|].
  cbn [escapeXml_spec]. rewrite free_of_app, IH, andb_true_r.
  destruct (Ascii.eqb c "&"); [reflexivity|].
  destruct (Ascii.eqb c "<") eqn:E; [reflexivity|].
  destruct (Ascii.eqb c ">"); [reflexivity|].
  destruct (b && Ascii.eqb c (ascii_of_nat 34))%bool; [reflexivity|].
  cbn [free_of]. now rewrite E.
Qed.

Lemma image_description_witness :
  render escapeXml_spec renderer0
    ((Event true outer_image
      :: map (Event true)
           [ with_literal "a<b" (with_type "Text" node0);
             with_literal " & c" (with_type "Text" node0) ])
     ++ [Event false outer_image])
  = Returned ("<img src=" ++ DQ ++ "a.png" ++ DQ ++ " alt=" ++ DQ
              ++ "a&lt;b &amp; c" ++ DQ ++ " />").
Proof.
  exact (image_description escapeXml_spec renderer0 outer_image
           [ with_literal "a<b" (with_type "Text" node0);
             with_literal " & c" (with_type "Text" node0) ]
           eq_refl eq_refl (fun s => escapeXml_spec_without_lt s false)).
Defined.

(** ** Source positions *)

Section SourcePositions.

Variable escapeXml : string -> bool -> string.

(** X14.  A block quote and a list item never carry the attribute of the
    source position: [blockquote] and [item] take the node for their list of
    attributes, so that their tags are bare whatever the options and the
    position of the node; a paragraph under the same renderer carries the
    attribute that the dispatcher computes. *)
Theorem blockquote_item_bare_tags (r : renderer) (n : node) :
  (toLowerCase (type n) = "blockquote" ->
   step escapeXml r (Event true n)
   = Normal (cr (out (cr (set_entering r true)) "<blockquote>"))
   /\ step escapeXml r (Event false n)
      = Normal (cr (out (cr (set_entering r false)) "</blockquote>")))
  /\ (toLowerCase (type n) = "item" ->
      step escapeXml r (Event true n) = Normal (out (set_entering r true) "<li>")
      /\ step escapeXml r (Event false n)
         = Normal (cr (out (set_entering r false) "</li>")))
  /\ (toLowerCase (type n) = "paragraph" ->
      in_tight_list n = false -> parent n <> None ->
      opt_sourcepos (options r) = true ->
      forall pos, sourcepos n = Some pos ->
      step escapeXml r (Event true n)
      = Normal (out (cr (set_entering r true))
                  ("<p data-sourcepos=" ++ DQ
                   ++ number_toString (fst (fst pos)) ++ ":"
                   ++ number_toString (snd (fst pos)) ++ "-"
                   ++ number_toString (fst (snd pos)) ++ ":"
                   ++ number_toString (snd (snd pos)) ++ DQ ++ ">"))).
Proof.
  split; [|split].
  - intros E. unfold step. cbn [ev_node ev_entering]. rewrite E. split; reflexivity.
  - intros E. unfold step. cbn [ev_node ev_entering]. rewrite E. split; reflexivity.
  - intros E Ht Hp Hs pos Hpos.
    rewrite (step_paragraph escapeXml r n true E).
    unfold paragraph, in_tight_list in *.
    destruct (parent n) as [p|]; [|contradiction].
    assert (Htag : tag "p" (Some (sourcepos_attrs (set_entering r true) n)) false
                   = "<p data-sourcepos=" ++ DQ
                     ++ number_toString (fst (fst pos)) ++ ":"
                     ++ number_toString (snd (fst pos)) ++ "-"
                     ++ number_toString (fst (snd pos)) ++ ":"
                     ++ number_toString (snd (snd pos)) ++ DQ ++ ">").
    { rewrite tag_shape. unfold sourcepos_attrs. cbn [set_entering options].
      rewrite Hs, Hpos. cbn [push app attrs_text fst snd].
      rewrite !append_assoc. reflexivity. }
    rewrite Htag.
    destruct (parent p) as [g|]; [rewrite Ht|]; reflexivity.
Qed.

End SourcePositions.

Lemma blockquote_item_bare_tags_witness :
  step escapeXml_spec (reset renderer_sourcepos)
    (Event true (with_sourcepos ((1, 1), (2, 5)) (with_type "BlockQuote" node0)))
  = Normal (cr (out (cr (set_entering (reset renderer_sourcepos) true)) "<blockquote>")).
Proof.
  exact (proj1 (proj1 (blockquote_item_bare_tags escapeXml_spec (reset renderer_sourcepos)
                         (with_sourcepos ((1, 1), (2, 5)) (with_type "BlockQuote" node0)))
                      eq_refl)).
Defined.

Section SourcePositionsOff.

Variable escapeXml : string -> bool -> string.

Lemma step_without_sourcepos (r : renderer) (b : bool) (n : node) :
  negb (opt_sourcepos (options r)) = true ->
  has_handler n = true ->
  step escapeXml r (Event b (without_sourcepos n)) = step escapeXml r (Event b n).
Proof.
  intros Hs Hh. apply negb_true_iff in Hs.
  destruct (has_handler_get n Hh) as (m & Hg & Hm & _).
  unfold step. cbn [ev_node ev_entering].
  change (type (without_sourcepos n)) with (type n). rewrite Hg.
  unfold sourcepos_attrs. cbn [set_entering options]. rewrite Hs.
  destruct m; try discriminate Hm; reflexivity.
Qed.

(** X15.  With the option for source positions off, the output of
    [render] over events whose node types all have handlers does not depend
    on the source positions of the nodes. *)
Theorem render_without_sourcepos (r : renderer) (events : list event) :
  opt_sourcepos (options r) = false ->
  known_types events = true ->
  render escapeXml r (map (map_node without_sourcepos) events)
  = render escapeXml r events.
Proof.
  intros Hs Hk. unfold render.
  rewrite (run_map_node escapeXml (fun o => negb (opt_sourcepos o)) without_sourcepos);
    [reflexivity| | | |exact Hk].
  - intros n. reflexivity.
  - exact step_without_sourcepos.
  - cbn [reset options]. now rewrite Hs.
Qed.

End SourcePositionsOff.

Lemma render_without_sourcepos_witness :
  render escapeXml_spec renderer0
    (map (map_node without_sourcepos)
       [ Event true (with_sourcepos ((1, 1), (1, 3)) loose_paragraph);
         Event false (with_sourcepos ((1, 1), (1, 3)) loose_paragraph) ])
  = render escapeXml_spec renderer0
      [ Event true (with_sourcepos ((1, 1), (1, 3)) loose_paragraph);
        Event false (with_sourcepos ((1, 1), (1, 3)) loose_paragraph) ].
Proof.
  exact (render_without_sourcepos escapeXml_spec renderer0
           [ Event true (with_sourcepos ((1, 1), (1, 3)) loose_paragraph);
             Event false (with_sourcepos ((1, 1), (1, 3)) loose_paragraph) ]
           eq_refl eq_refl).
Defined.

(** ** Links *)

(** X16.  Entering a link emits one tag [a] that holds, in this order, the
    attributes it was given, the escaped destination unless safe mode is on
    and the filter takes the destination for unsafe, and the escaped title
    unless the title is absent or empty; leaving it emits the closing tag. *)
Theorem link_output (r : renderer) (n : node) (attrs : list attr) :
  link r n attrs
  = Normal (out r (if entering r
                   then "<a" ++ attrs_text attrs ++ link_href r n ++ link_title r n ++ ">"
                   else "</a>"))
  /\ (opt_safe (options r) = true -> potentiallyUnsafe (destination n) = true ->
      link_href r n = "")
  /\ (opt_safe (options r) = false \/ potentiallyUnsafe (destination n) = false ->
      link_href r n = " href=" ++ DQ ++ escape r (destination n) true ++ DQ)
  /\ (title n = None \/ title n = Some "" -> link_title r n = "")
  /\ (forall c t, title n = Some (String c t) ->
      link_title r n = " title=" ++ DQ ++ escape r (String c t) true ++ DQ).
Proof.
  split; [|split; [|split; [|split]]].
  - unfold link, link_href, link_title. destruct (entering r); [|reflexivity].
    cbv zeta. do 2 f_equal. rewrite tag_shape.
    destruct (opt_safe (options r) && potentiallyUnsafe (destination n))%bool;
      cbn [negb];
      (destruct (title n) as [t|]; [destruct (truthy (Some t))|]);
      rewrite ?attrs_text_push; cbn [fst snd];
      rewrite ?append_assoc, ?append_nil_r; reflexivity.
  - intros Hs Hu. unfold link_href. now rewrite Hs, Hu.
  - intros [Hs|Hu]; unfold link_href; [now rewrite Hs | now rewrite Hu, andb_false_r].
  - intros [Ht|Ht]; unfold link_title; now rewrite Ht.
  - intros c t Ht. unfold link_title. now rewrite Ht.
Qed.

(** ** The dispatcher and letter case *)

Section LetterCase.

Variable escapeXml : string -> bool -> string.

(** X17.  The dispatcher finds the handler by the node type in lower case,
    and no handler reads the type of its node: an event whose node type
    names a handler is handled the same under every spelling of the type
    that differs in letter case only. *)
Theorem dispatch_ignores_case (r : renderer) (b : bool) (n : node) (t : string) :
  has_handler n = true ->
  toLowerCase t = toLowerCase (type n) ->
  step escapeXml r (Event b (with_type t n)) = step escapeXml r (Event b n).
Proof.
  intros Hh Ht. destruct (has_handler_get n Hh) as (m & Hg & Hm & _).
  unfold step. cbn [ev_node ev_entering with_type type].
  rewrite Ht, Hg.
  destruct m; try discriminate Hm; reflexivity.
Qed.

End LetterCase.

Lemma dispatch_ignores_case_witness :
  step escapeXml_spec (reset renderer0)
    (Event true (with_type "PARAGRAPH" loose_paragraph))
  = step escapeXml_spec (reset renderer0) (Event true loose_paragraph).
Proof.
  exact (dispatch_ignores_case escapeXml_spec (reset renderer0) true
           loose_paragraph "PARAGRAPH" eq_refl eq_refl).
Defined.
